(** * Michaelis-Menten kinetics pipeline (Q33.py)

    A shallow embedding of [analyze_enzyme_kinetics] and of the printing loop
    that follows it.

    Numbers.  The program computes on NumPy [float64] values.  Finite values
    are modelled as exact rationals ([Qc], canonical fractions, so equality
    is Leibniz equality and every definition evaluates); rounding, overflow,
    underflow and signed zeros are not represented: the statements below
    are about which operation is computed on which data, not about the last
    digit.  The three IEEE special values a
    division can produce are kept, because NumPy's true division never
    raises: it yields an infinity or a NaN.

    Libraries.  [np.polyfit] at degree 1 is modelled by its documented
    result: lstsq on the column-scaled design matrix at the cut-off
    [rcond = len(x) * eps], that is the least-squares line (closed form)
    when the matrix has full rank at that cut-off and the minimum-norm
    solution otherwise.  The iterative optimiser behind
    [scipy.optimize.curve_fit] is a function argument of the pipeline.

    Frames.  The grid is what the loader yields on a sheet of numbers:
    every cell is a finite number.  Blank cells (NaN) and text cells, on
    which [.astype(float)] raises ValueError, are outside the model. *)

From Stdlib Require Import Floats.
From Stdlib Require Import String Ascii QArith Qcanon ZArith List Bool Lia Arith Lqa.
From Stdlib Require DecimalString.
Import ListNotations.

Local Open Scope Qc_scope.

(** ** Exceptions and outcomes *)

(** Exception classes that the interpreter and the libraries raise on the
    paths of this program. *)
Inductive py_exception : Type :=
| IndexError      (* pandas: positional indexer out of bounds *)
| TypeError       (* np.polyfit: empty x, or x and y of different length *)
| LinAlgError     (* np.linalg.lstsq: SVD did not converge *)
| ValueError      (* curve_fit: empty ydata *)
| RuntimeError.   (* curve_fit: optimal parameters not found *)

(** The error taxonomy named by the design document. *)
Inductive typed_error : Type :=
| DataFormatError
| DegenerateWindowError
| InsufficientDataError
| FitConvergenceError
| InvalidConfigurationError
| DivisionByZeroError.

Inductive raised : Type :=
| Builtin (e : py_exception)
| Typed (e : typed_error).

Inductive outcome (A : Type) : Type :=
| Return (a : A)
| Raise (e : raised).

Arguments Return {A} a.
Arguments Raise {A} e.

Definition bind {A B : Type} (c : outcome A) (k : A -> outcome B) : outcome B :=
  match c with
  | Return a => k a
  | Raise e => Raise e
  end.

(** A library call: its exceptions are the library's own classes. *)
Definition call {A : Type} (r : py_exception + A) : outcome A :=
  match r with
  | inl e => Raise (Builtin e)
  | inr a => Return a
  end.

Notation "x <- c ;; k" := (bind c (fun x => k))
  (at level 61, c at next level, right associativity).

(** ** float64 values *)

Inductive float64 : Type :=
| Finite (q : Qc)
| PosInf
| NegInf
| NaN.

Definition Qc_of_Z (z : Z) : Qc := Q2Qc (inject_Z z).
Definition Qc_of_nat (n : nat) : Qc := Qc_of_Z (Z.of_nat n).

Definition Qc_eqb (a b : Qc) : bool :=
  if Qc_eq_dec a b then true else false.

Definition Qc_ltb (a b : Qc) : bool :=
  match a ?= b with Lt => true | _ => false end.

(** [a / b] on NumPy scalars.  A zero divisor gives an infinity of the sign
    of the dividend, or NaN for [0 / 0]; no exception is raised.  The
    quotient of finite numbers is the exact one: binary64 rounds it, and
    turns it into an infinity or a zero when it leaves the range. *)
Definition truediv (a b : float64) : float64 :=
  match a, b with
  | NaN, _ | _, NaN => NaN
  | Finite x, Finite y =>
      if Qc_eqb y 0 then
        if Qc_eqb x 0 then NaN
        else if Qc_ltb 0 x then PosInf else NegInf
      else Finite (x / y)
  | Finite _, (PosInf | NegInf) => Finite 0
  | PosInf, Finite y => if Qc_ltb y 0 then NegInf else PosInf
  | NegInf, Finite y => if Qc_ltb y 0 then PosInf else NegInf
  | (PosInf | NegInf), (PosInf | NegInf) => NaN
  end.

(** [a <= b] on float64, false whenever a NaN is involved. *)
Definition f64_le (a b : float64) : Prop :=
  match a, b with
  | NaN, _ | _, NaN => False
  | NegInf, _ => True
  | _, PosInf => True
  | Finite x, Finite y => x <= y
  | _, _ => False
  end.

(** ** Python slices and pandas positional indexing *)

(** A slice bound clipped to [0 .. n], negative bounds counted from the end. *)
Definition slice_bound (i : Z) (n : nat) : nat :=
  if (i <? 0)%Z then Z.to_nat (Z.max 0 (i + Z.of_nat n))
  else Nat.min (Z.to_nat i) n.

(** [l[start:stop]]. *)
Definition slice {A : Type} (start stop : option Z) (l : list A) : list A :=
  let n := length l in
  let lo := match start with None => 0%nat | Some i => slice_bound i n end in
  let hi := match stop with None => n | Some j => slice_bound j n end in
  firstn (hi - lo) (skipn lo l).

(** The grid read from the first sheet with [header=None]: [n_columns]
    columns and the rows in order.  pandas pads short rows, so every row has
    [n_columns] cells. *)
Record DataFrame : Type := mkDataFrame {
  n_columns : nat;
  rows : list (list Qc)
}.

Definition rectangular (df : DataFrame) : Prop :=
  Forall (fun row => length row = n_columns df) (rows df).

(** A two-dimensional array with its column count ([shape[1]]), which is
    known even when there is no row. *)
Record ndarray2 : Type := mkArray {
  shape1 : nat;
  data : list (list Qc)
}.

(** [df.iloc[r, start:stop].astype(float).values] *)
Definition iloc_row (df : DataFrame) (r : nat) (start stop : option Z)
  : outcome (list Qc) :=
  match nth_error (rows df) r with
  | None => Raise (Builtin IndexError)
  | Some row => Return (slice start stop row)
  end.

(** [df.iloc[start:, -1].astype(float).values] *)
Definition iloc_last_column (df : DataFrame) (start : option Z)
  : outcome (list Qc) :=
  match n_columns df with
  | O => Raise (Builtin IndexError)
  | S _ => Return (map (fun row => last row 0) (slice start None (rows df)))
  end.

(** [df.iloc[rstart:, cstart:cstop].astype(float).values] *)
Definition iloc_block (df : DataFrame) (rstart cstart cstop : option Z)
  : ndarray2 :=
  {| shape1 := length (slice cstart cstop (repeat tt (n_columns df)));
     data := map (slice cstart cstop) (slice rstart None (rows df)) |}.

(** [a[:stop, i]] *)
Definition column_window (a : ndarray2) (stop : Z) (i : nat) : list Qc :=
  map (fun row => nth i row 0) (slice None (Some stop) (data a)).

(** ** np.polyfit at degree 1 *)

Definition sum (l : list Qc) : Qc := fold_right Qcplus 0 l.

Definition dot (x y : list Qc) : Qc :=
  sum (map (fun p => fst p * snd p) (combine x y)).

(** Determinant of the normal equations of the line fit. *)
Definition normal_det (x : list Qc) : Qc :=
  Qc_of_nat (length x) * dot x x - sum x * sum x.

Definition two : Qc := 1 + 1.

(** [np.finfo(float).eps] *)
Definition machine_epsilon : Qc := Q2Qc (1 # 4503599627370496).

(** The cut-off that [np.polyfit] passes to lstsq: [len(x) * eps]. *)
Definition rcond (x : list Qc) : Qc := Qc_of_nat (length x) * machine_epsilon.

(** lstsq keeps both singular values of the column-scaled design matrix.
    The columns [x / sqrt(sum x^2)] and [1 / sqrt(n)] have unit length and
    inner product [rho = sum x / sqrt(n * sum x^2)], so the singular values
    are [sqrt(1 + |rho|)] and [sqrt(1 - |rho|)]; the smaller one passes the
    cut-off when [sqrt(1 - |rho|) > rcond * sqrt(1 + |rho|)], which for
    [rcond < 1] is the rational inequality below. *)
Definition full_rank (x : list Qc) : bool :=
  let r2 := rcond x * rcond x in
  Qc_ltb (rcond x) 1 &&
  Qc_ltb (sum x * sum x * ((1 + r2) * (1 + r2)))
         ((1 - r2) * (1 - r2) * (Qc_of_nat (length x) * dot x x)).

(** Slope and intercept of the minimum-norm solution that lstsq returns
    when it drops the smaller singular value.  With [R = sqrt(n * sum x^2)]
    they are [(Sxy * R / Sxx + s * Sy) / (2 * (R + |Sx|))] and
    [(s * Sxy + Sy * R / n) / (2 * (R + |Sx|))], [s] the sign of [Sx].
    Below the cut-off [R] exceeds [|Sx|] by less than the relative
    [2 * rcond^2 / (1 - rcond^2)], far beyond the precision of binary64
    (and [R = |Sx|] when all abscissae coincide): [|Sx|] is written for [R]. *)
Definition rank1_slope (x y : list Qc) : Qc :=
  dot x y / (two * two * dot x x) + sum y / (two * two * sum x).

Definition rank1_intercept (x y : list Qc) : Qc :=
  dot x y / (two * two * sum x)
  + sum y / (two * two * Qc_of_nat (length x)).

(** [np.polyfit(x, y, 1)]: the coefficients, highest power first.
    An empty [x] and arrays of different lengths are refused.  The columns
    of the design matrix are scaled by their norms; when every abscissa is
    0 that divides 0 by 0, the matrix holds NaNs and lstsq fails to
    converge.  Otherwise lstsq solves at the cut-off [rcond]: the
    least-squares line when both singular values are kept, the minimum-norm
    solution (and a RankWarning only) when the smaller one is dropped. *)
Definition polyfit (x y : list Qc) : py_exception + (Qc * Qc) :=
  match x with
  | [] => inl TypeError
  | _ :: _ =>
      if negb (length x =? length y)%nat then inl TypeError
      else if Qc_eqb (dot x x) 0 then inl LinAlgError
      else if full_rank x then
        let n := Qc_of_nat (length x) in
        let d := normal_det x in
        inr ((n * dot x y - sum x * sum y) / d,
             (sum y * dot x x - sum x * dot x y) / d)
      else inr (rank1_slope x y, rank1_intercept x y)
  end.

(** ** The rate law *)

(** [michaelis_menten(S, Vmax, Km)], element by element over the array [S]:
    the product and the sum are the exact ones, the division is NumPy's. *)
Definition michaelis_menten (S : list Qc) (Vmax Km : Qc) : list float64 :=
  map (fun s => truediv (Finite (Vmax * s)) (Finite (Km + s))) S.

(** ** scipy.optimize.curve_fit *)

Definition model_function : Type := list Qc -> Qc -> Qc -> list float64.

(** The bounded trust-region solver that [curve_fit] runs when bounds are
    given: model, xdata, ydata and the (lower, upper) bounds go in, the
    optimal parameters or the library's exception come out. *)
Definition optimizer : Type :=
  model_function -> list Qc -> list Qc -> float64 * float64 ->
  py_exception + (Qc * Qc).

(** [curve_fit(f, xdata, ydata, bounds=bounds)]: empty [ydata] is refused
    before the solver runs. *)
Definition curve_fit (least_squares : optimizer) (f : model_function)
    (xdata ydata : list Qc) (bounds : float64 * float64)
  : py_exception + (Qc * Qc) :=
  match ydata with
  | [] => inl ValueError
  | _ :: _ => least_squares f xdata ydata bounds
  end.

(** ** analyze_enzyme_kinetics *)

Definition num_points_for_slope : Z := 5.

(** The loop of lines 37-39: one [polyfit] per column, [-slope] appended to
    [initial_rates]; an exception leaves the loop. *)
Fixpoint rate_loop (time_points : list Qc) (reaction_data : ndarray2)
    (columns : list nat) (initial_rates : list Qc) : outcome (list Qc) :=
  match columns with
  | [] => Return initial_rates
  | i :: rest =>
      fit <- call (polyfit (slice None (Some num_points_for_slope) time_points)
                           (column_window reaction_data num_points_for_slope i)) ;;
      rate_loop time_points reaction_data rest (initial_rates ++ [- fst fit])
  end.

(** Lines 33-41: the initial velocities. *)
Definition initial_velocities (time_points : list Qc) (reaction_data : ndarray2)
  : outcome (list Qc) :=
  rate_loop time_points reaction_data (seq 0 (shape1 reaction_data)) [].

(** The result dictionary, in insertion order. *)
Definition results_dict : Type := list (string * float64).

Fixpoint lookup (key : string) (d : results_dict) : option float64 :=
  match d with
  | [] => None
  | (k, v) :: rest => if String.eqb k key then Some v else lookup key rest
  end.

(** Lines 43-59: the fit and the derived constants. *)
Definition fit_kinetics (least_squares : optimizer)
    (substrate_concentrations initial_rates : list Qc)
    (enzyme_concentration : Qc) : outcome results_dict :=
  popt <- call (curve_fit least_squares michaelis_menten
                  substrate_concentrations initial_rates (Finite 0, PosInf)) ;;
  let '(Vmax, Km) := popt in
  let kcat := truediv (Finite Vmax) (Finite enzyme_concentration) in
  let catalytic_efficiency := truediv kcat (Finite Km) in
  Return [ ("Km (µM)", Finite Km);
           ("Vmax (µM/s)", Finite Vmax);
           ("kcat (s^-1)", kcat);
           ("Catalytic Efficiency (M^-1s^-1)", catalytic_efficiency) ]%string.

(** Lines 25-31: the three extractions from the grid. *)
Definition load_grid (df : DataFrame)
  : outcome (list Qc * list Qc * ndarray2) :=
  substrate_concentrations <- iloc_row df 0 (Some 1%Z) (Some (-1)%Z) ;;
  time_points <- iloc_last_column df (Some 2%Z) ;;
  let reaction_data := iloc_block df (Some 2%Z) (Some 1%Z) (Some (-1)%Z) in
  Return (substrate_concentrations, time_points, reaction_data).

(** [analyze_enzyme_kinetics(file_path, enzyme_concentration)]; [df] is the
    frame that [pd.read_excel(file_path, sheet_name=0, header=None)] yields. *)
Definition analyze_enzyme_kinetics (least_squares : optimizer)
    (df : DataFrame) (enzyme_concentration : Qc) : outcome results_dict :=
  grid <- load_grid df ;;
  let '(substrate_concentrations, time_points, reaction_data) := grid in
  initial_rates <- initial_velocities time_points reaction_data ;;
  fit_kinetics least_squares substrate_concentrations initial_rates
               enzyme_concentration.

(** The default of the keyword argument: [20e-12]. *)
Definition default_enzyme_concentration : Qc :=
  Q2Qc (20 # 1000000000000).

(** ** Rendering with the format [.3e] *)

Local Open Scope Z_scope.

Fixpoint ndigits_aux (fuel : nat) (n : Z) : Z :=
  match fuel with
  | O => 1
  | S f => if n <? 10 then 1 else 1 + ndigits_aux f (n / 10)
  end.

(** Number of decimal digits of a positive integer. *)
Definition ndigits (n : Z) : Z := ndigits_aux (Z.to_nat (Z.log2 n)) n.

(** The fraction [a / b * 10^k]. *)
Definition scale10 (a b k : Z) : Z * Z :=
  if 0 <=? k then (a * 10 ^ k, b) else (a, b * 10 ^ (- k)).

(** The decimal exponent of [a / b]: the [e] with [10^e <= a/b < 10^(e+1)]. *)
Definition decimal_exponent (a b : Z) : Z :=
  let e0 := ndigits a - ndigits b in
  let '(n, d) := scale10 a b (- e0) in
  if n <? d then e0 - 1 else e0.

(** [n / d] rounded to the nearest integer, ties to even. *)
Definition round_half_even (n d : Z) : Z :=
  let q := n / d in
  match 2 * (n mod d) ?= d with
  | Lt => q
  | Gt => q + 1
  | Eq => if Z.even q then q else q + 1
  end.

(** Mantissa (as an integer of four digits) and exponent of [a / b] at
    precision 3; a mantissa that rounds up to 10000 moves to the next decade. *)
Definition sci_digits (a b : Z) : Z * Z :=
  let e := decimal_exponent a b in
  let '(n, d) := scale10 a b (3 - e) in
  let m := round_half_even n d in
  if m =? 10000 then (1000, e + 1) else (m, e).

Definition digit (d : Z) : ascii := ascii_of_nat (48 + Z.to_nat d).

Definition mantissa_string (m : Z) : string :=
  String (digit (m / 1000))
    (String "."
       (String (digit (m / 100 mod 10))
          (String (digit (m / 10 mod 10))
             (String (digit (m mod 10)) EmptyString)))).

(** Sign and at least two digits. *)
Definition exponent_string (e : Z) : string :=
  ((if (e <? 0)%Z then "-" else "+") ++
   (if (Z.abs e <? 10)%Z then "0" else "") ++
   DecimalString.NilZero.string_of_uint (N.to_uint (Z.to_N (Z.abs e))))%string.

(** [f"{value:.3e}"] *)
Definition format_3e (value : float64) : string :=
  match value with
  | NaN => "nan"
  | PosInf => "inf"
  | NegInf => "-inf"
  | Finite q =>
      let a := Qnum q in
      let b := Zpos (Qden q) in
      if a =? 0 then "0.000e+00"
      else
        let '(m, e) := sci_digits (Z.abs a) b in
        ((if (a <? 0)%Z then "-" else "") ++
         mantissa_string m ++ "e" ++ exponent_string e)%string
  end.

(** Lines 66-67: one line per entry of the dictionary. *)
Definition print_results (results : results_dict) : list string :=
  map (fun kv => (fst kv ++ ": " ++ format_3e (snd kv))%string) results.

(** Lines 62-67: the script calls the analysis with the default enzyme
    concentration and prints the dictionary. *)
Definition script (least_squares : optimizer) (df : DataFrame)
  : outcome (list string) :=
  kinetics_results <-
    analyze_enzyme_kinetics least_squares df default_enzyme_concentration ;;
  Return (print_results kinetics_results).

Definition is_digit (c : ascii) : bool :=
  let n := nat_of_ascii c in (48 <=? n)%nat && (n <=? 57)%nat.

(** Digits of the mantissa: the decimal digits before the exponent mark. *)
Fixpoint significant_digits (s : string) : nat :=
  match s with
  | EmptyString => 0%nat
  | String c rest =>
      if Ascii.eqb c "e" then 0%nat
      else ((if is_digit c then 1 else 0) + significant_digits rest)%nat
  end.

Local Close Scope Z_scope.

(** ** Reference notions used by the statements *)



(** Number of distinct values in a list. *)
Definition distinct_count (l : list Qc) : nat :=
  length (nodup Qc_eq_dec l).

Definition all_equal (l : list Qc) : Prop :=
  forall a b, In a l -> In b l -> a = b.

Definition sq (v : Qc) : Qc := v * v.

(** Closed form of the least-squares line through points with at least two
    distinct abscissae. *)
Definition ols_slope (x y : list Qc) : Qc :=
  (Qc_of_nat (length x) * dot x y - sum x * sum y) / normal_det x.

Definition ols_intercept (x y : list Qc) : Qc :=
  (sum y * dot x x - sum x * dot x y) / normal_det x.

(** Cell [(r, c)] of the grid. *)
Definition cell (df : DataFrame) (r c : nat) : Qc :=
  nth c (nth r (rows df) []) 0.

(** The interior block as the layout sentence words it: rows from 2 on,
    every column but the last. *)
Definition rows_from_2_all_but_last_column (df : DataFrame)
  : list (list Qc) :=
  map (@removelast Qc) (skipn 2 (rows df)).

(** ** Solver runs and sample grids *)

(** What scipy promises of a bounded fit: the parameters lie in the box. *)
Definition respects_bounds (least_squares : optimizer) : Prop :=
  forall f xdata ydata lo hi Vmax Km,
    least_squares f xdata ydata (lo, hi) = inr (Vmax, Km) ->
    f64_le lo (Finite Vmax) /\ f64_le (Finite Vmax) hi /\
    f64_le lo (Finite Km) /\ f64_le (Finite Km) hi.

(** [a < b] on float64, false whenever a NaN is involved. *)
Definition f64_lt (a b : float64) : Prop :=
  match a, b with
  | NaN, _ | _, NaN => False
  | Finite x, Finite y => x < y
  | NegInf, (Finite _ | PosInf) => True
  | Finite _, PosInf => True
  | _, _ => False
  end.

(** What scipy's bounded solver (trf) keeps of every iterate, the returned
    one included: the parameters lie strictly inside the box. *)
Definition strictly_feasible (least_squares : optimizer) : Prop :=
  forall f xdata ydata lo hi Vmax Km,
    least_squares f xdata ydata (lo, hi) = inr (Vmax, Km) ->
    f64_lt lo (Finite Vmax) /\ f64_lt (Finite Vmax) hi /\
    f64_lt lo (Finite Km) /\ f64_lt (Finite Km) hi.

(** The box is non-empty (scipy refuses the other boxes with ValueError). *)
Definition feasible (lo hi : float64) : bool :=
  match lo, hi with
  | Finite l, Finite h => Qc_ltb l h
  | (Finite _ | NegInf), PosInf => true
  | NegInf, Finite _ => true
  | _, _ => false
  end.

(** The smallest positive binary64 number, [nextafter(0, 1)]: the step by
    which trf moves a parameter off a bound. *)
Definition tiny : Qc := Q2Qc (1 # Z.to_pos (2 ^ 1074)).

(** A point strictly inside a non-empty box: [v] itself when it lies
    inside, otherwise a point just inside the bound (the midpoint when both
    bounds are finite). *)
Definition interior (lo hi : float64) (v : Qc) : Qc :=
  match lo, hi with
  | Finite l, Finite h =>
      if Qc_ltb l v && Qc_ltb v h then v else (l + h) / two
  | Finite l, _ => if Qc_ltb l v then v else l + tiny
  | _, Finite h => if Qc_ltb v h then v else h - tiny
  | _, _ => v
  end.

(** A solver run that converges to the point [p], kept strictly inside the
    box as trf keeps its iterates. *)
Definition converges_to (p : Qc * Qc) : optimizer :=
  fun _ _ _ bounds =>
    let '(lo, hi) := bounds in
    if feasible lo hi then inr (interior lo hi (fst p), interior lo hi (snd p))
    else inl ValueError.

(** A solver run that exhausts its evaluation budget. *)
Definition does_not_converge : optimizer :=
  fun _ _ _ _ => inl RuntimeError.

Definition row (cells : list Z) : list Qc := map Qc_of_Z cells.

(** Two concentration columns (1 and 2), five samples at times 0..4, signals
    [10 - 2 t] and [20 - 3 t]; column 0 and row 1 carry labels. *)
Definition sample_grid : DataFrame :=
  {| n_columns := 4;
     rows := [ row [0; 1; 2; 0];
               row [0; 0; 0; 0];
               row [7; 10; 20; 0];
               row [7; 8; 17; 1];
               row [7; 6; 14; 2];
               row [7; 4; 11; 3];
               row [7; 2; 8; 4] ]%Z |}.

(** What line 25, 28 and 31 extract from [sample_grid]. *)
Definition sample_concentrations : list Qc := row [1; 2]%Z.

Definition sample_times : list Qc := row [0; 1; 2; 3; 4]%Z.

Definition sample_signal : ndarray2 :=
  {| shape1 := 2;
     data := [ row [10; 20]; row [8; 17]; row [6; 14];
               row [4; 11]; row [2; 8] ]%Z |}.

(** One column whose signal falls from 5 to 1 over five samples. *)
Definition ramp_signal : ndarray2 :=
  {| shape1 := 1;
     data := [ row [5]; row [4]; row [3]; row [2]; row [1] ]%Z |}.

(** Five samples all taken at time 1. *)
Definition flat_times : list Qc := row [1; 1; 1; 1; 1]%Z.

(** Five samples with two distinct times. *)
Definition corner_times : list Qc := row [0; 0; 0; 0; 1]%Z.

(** Three samples only. *)
Definition short_times : list Qc := row [0; 1; 2]%Z.

Definition short_signal : ndarray2 :=
  {| shape1 := 2;
     data := [ row [10; 20]; row [8; 17]; row [6; 14] ]%Z |}.

(** Concentrations 1, 2, 5, 10, 20, 50 with signals [1000 - v t] whose
    velocities [v] follow the rate law at Vmax = 100 and Km = 10. *)
Definition scenario_concentrations : list Qc := row [1; 2; 5; 10; 20; 50]%Z.

Definition scenario_velocity (c : Qc) : Qc :=
  Qc_of_Z 100 * c / (Qc_of_Z 10 + c).

Definition scenario_grid : DataFrame :=
  {| n_columns := 8;
     rows := (0 :: scenario_concentrations ++ [0])
             :: repeat 0 8
             :: map (fun t =>
                       0 :: map (fun c => Qc_of_Z 1000 - scenario_velocity c * t)
                                scenario_concentrations ++ [t])
                    (row [0; 1; 2; 3; 4]%Z) |}.

(** One concentration column only: concentration 10, velocity 50. *)
Definition single_grid : DataFrame :=
  {| n_columns := 3;
     rows := [ row [0; 10; 0];
               row [0; 0; 0];
               row [0; 1000; 0];
               row [0; 950; 1];
               row [0; 900; 2];
               row [0; 850; 3];
               row [0; 800; 4] ]%Z |}.

(** Two columns whose signal does not change: both velocities are 0. *)
Definition constant_grid : DataFrame :=
  {| n_columns := 4;
     rows := [ row [0; 1; 2; 0];
               row [0; 0; 0; 0];
               row [0; 5; 5; 0];
               row [0; 5; 5; 1];
               row [0; 5; 5; 2];
               row [0; 5; 5; 3];
               row [0; 5; 5; 4] ]%Z |}.

(** The dictionary for Vmax = 100, Km = 10 at the default enzyme
    concentration. *)
Definition scenario_results : results_dict :=
  [ ("Km (µM)", Finite (Qc_of_Z 10));
    ("Vmax (µM/s)", Finite (Qc_of_Z 100));
    ("kcat (s^-1)", Finite (Qc_of_Z 5000000000000));
    ("Catalytic Efficiency (M^-1s^-1)", Finite (Qc_of_Z 500000000000)) ]%string.

(** ** Further notions and sample grids *)

(** The signal matrix with [f] applied to every cell. *)
Definition map_signal (f : Qc -> Qc) (a : ndarray2) : ndarray2 :=
  {| shape1 := shape1 a; data := map (map f) (data a) |}.

(** Every row of the array has [shape1] cells. *)
Definition well_shaped (a : ndarray2) : Prop :=
  Forall (fun r => length r = shape1 a) (data a).

Definition is_finite (v : float64) : bool :=
  match v with
  | Finite _ => true
  | _ => false
  end.

(** A label column and a time column only: no concentration column. *)
Definition two_column_grid : DataFrame :=
  {| n_columns := 2;
     rows := [ row [0; 0]; row [0; 0]; row [7; 0]; row [7; 1]; row [7; 2] ]%Z |}.

(** The two header rows only: no sample row. *)
Definition header_only_grid : DataFrame :=
  {| n_columns := 4;
     rows := [ row [0; 1; 2; 0]; row [0; 0; 0; 0] ]%Z |}.

(** [sample_grid] followed by two more samples off the lines. *)
Definition longer_grid : DataFrame :=
  {| n_columns := 4;
     rows := rows sample_grid ++ [ row [7; 100; 200; 5]; row [7; 0; 0; 9] ]%Z |}.

(** [sample_grid] with other labels in column 0 and in row 1. *)
Definition relabelled_grid : DataFrame :=
  {| n_columns := 4;
     rows := [ row [9; 1; 2; 0];
               row [1; 2; 3; 4];
               row [8; 10; 20; 0];
               row [6; 8; 17; 1];
               row [5; 6; 14; 2];
               row [4; 4; 11; 3];
               row [3; 2; 8; 4] ]%Z |}.

(** The number [m * 10^k]. *)
Definition decimal (m k : Z) : Qc :=
  Q2Qc (if (0 <=? k)%Z then inject_Z (m * 10 ^ k)
        else m # Z.to_pos (10 ^ (- k))).

(** The slope that [polyfit] returns on a window it does not refuse. *)
Definition fitted_slope (x y : list Qc) : Qc :=
  if full_rank x then ols_slope x y else rank1_slope x y.

Definition fitted_intercept (x y : list Qc) : Qc :=
  if full_rank x then ols_intercept x y else rank1_intercept x y.



(** * Arithmetic on [Qc] *)

Lemma Qc_sq_nonneg (x : Qc) : 0 <= x * x.
Proof.
  unfold Qcle, Qcmult, Q2Qc; cbn [this]; rewrite !Qred_correct.
  destruct x as [x Hx]; cbn [this].
  destruct (Qlt_le_dec x 0)%Q.
  - setoid_replace (x * x)%Q with ((- x) * (- x))%Q by ring.
    apply Qmult_le_0_compat; lra.
  - apply Qmult_le_0_compat; lra.
Qed.

Lemma Qc_add_nonneg (x y : Qc) : 0 <= x -> 0 <= y -> 0 <= x + y.
Proof.
  intros Hx Hy. replace 0 with (0 + 0) by ring.
  now apply Qcplus_le_compat.
Qed.

Lemma Qc_add_zero (x y : Qc) :
  0 <= x -> 0 <= y -> x + y = 0 -> x = 0 /\ y = 0.
Proof.
  intros Hx Hy H. split; apply Qcle_antisym; trivial; rewrite <- H.
  - replace x with (x + 0) at 1 by ring. apply Qcplus_le_compat; trivial.
    apply Qcle_refl.
  - replace y with (0 + y) at 1 by ring. apply Qcplus_le_compat; trivial.
    apply Qcle_refl.
Qed.

Lemma Qc_sq_zero (x : Qc) : x * x = 0 -> x = 0.
Proof. intros H. now destruct (Qcmult_integral _ _ H). Qed.

Lemma Qc_eqb_true (a b : Qc) : Qc_eqb a b = true <-> a = b.
Proof. unfold Qc_eqb. destruct (Qc_eq_dec a b); split; congruence. Qed.

Lemma Qc_eqb_false (a b : Qc) : Qc_eqb a b = false <-> a <> b.
Proof. unfold Qc_eqb. destruct (Qc_eq_dec a b); split; congruence. Qed.

Lemma Qc_ltb_true (a b : Qc) : Qc_ltb a b = true <-> a < b.
Proof.
  unfold Qc_ltb. rewrite Qclt_alt. destruct (a ?= b); split; congruence.
Qed.


Lemma Qc_of_nat_0 : Qc_of_nat 0 = 0.
Proof. apply Qc_is_canon. reflexivity. Qed.

Lemma Qc_of_nat_S (n : nat) : Qc_of_nat (S n) = Qc_of_nat n + 1.
Proof.
  unfold Qc_of_nat, Qc_of_Z. apply Qc_is_canon.
  unfold Qcplus, Q2Qc; cbn [this]. rewrite !Qred_correct.
  rewrite Nat2Z.inj_succ. unfold Z.succ. rewrite inject_Z_plus. reflexivity.
Qed.



(** * Sums *)

Lemma sum_nonneg (l : list Qc) :
  Forall (fun v => 0 <= v) l -> 0 <= sum l.
Proof.
  induction 1; cbn.
  - apply Qcle_refl.
  - now apply Qc_add_nonneg.
Qed.

Lemma sum_zero (l : list Qc) :
  Forall (fun v => 0 <= v) l -> sum l = 0 -> Forall (fun v => v = 0) l.
Proof.
  induction 1 as [|v l Hv Hl IH]; cbn; intros H; constructor.
  - now apply (Qc_add_zero v (sum l) Hv (sum_nonneg l Hl)).
  - apply IH. now apply (Qc_add_zero v (sum l) Hv (sum_nonneg l Hl)).
Qed.

Lemma sum_sq_nonneg {A : Type} (f : A -> Qc) (l : list A) :
  0 <= sum (map (fun p => sq (f p)) l).
Proof.
  apply sum_nonneg. apply Forall_map, Forall_forall. intros; apply Qc_sq_nonneg.
Qed.

Lemma sum_sq_zero {A : Type} (f : A -> Qc) (l : list A) :
  sum (map (fun p => sq (f p)) l) = 0 -> forall p, In p l -> f p = 0.
Proof.
  intros H p Hp. apply sum_zero in H.
  - rewrite Forall_map, Forall_forall in H. apply Qc_sq_zero. now apply H.
  - apply Forall_map, Forall_forall. intros; apply Qc_sq_nonneg.
Qed.

Lemma dot_cons (a b : Qc) (x y : list Qc) :
  dot (a :: x) (b :: y) = a * b + dot x y.
Proof. reflexivity. Qed.

Lemma sum_cons (a : Qc) (l : list Qc) : sum (a :: l) = a + sum l.
Proof. reflexivity. Qed.

Lemma sum_sq_shift (c : Qc) (l : list Qc) :
  sum (map (fun v => sq (v - c)) l)
  = dot l l - two * c * sum l + Qc_of_nat (length l) * (c * c).
Proof.
  induction l as [|v l IH].
  - unfold dot. cbn [map combine sum fold_right length].
    rewrite Qc_of_nat_0. ring.
  - cbn [map length]. rewrite sum_cons, dot_cons, sum_cons, Qc_of_nat_S, IH.
    unfold sq, two. ring.
Qed.

(** * The normal equations *)

Lemma normal_det_cons (c : Qc) (l : list Qc) :
  normal_det (c :: l) = normal_det l + sum (map (fun v => sq (v - c)) l).
Proof.
  rewrite sum_sq_shift. unfold normal_det.
  cbn [length]. rewrite dot_cons, sum_cons, Qc_of_nat_S. unfold two. ring.
Qed.

Lemma normal_det_nonneg (l : list Qc) : 0 <= normal_det l.
Proof.
  induction l as [|c l IH].
  - unfold normal_det, dot. cbn [map combine sum fold_right length].
    rewrite Qc_of_nat_0. ring_simplify. apply Qcle_refl.
  - rewrite normal_det_cons. apply Qc_add_nonneg; trivial.
    apply (sum_sq_nonneg (fun v => v - c)).
Qed.

Lemma normal_det_zero_iff (l : list Qc) :
  normal_det l = 0 <-> all_equal l.
Proof.
  induction l as [|c l IH].
  - split; [intros _ a b []|intros _].
    unfold normal_det, dot. cbn [map combine sum fold_right length].
    rewrite Qc_of_nat_0. ring.
  - rewrite normal_det_cons. split.
    + intros H.
      apply Qc_add_zero in H;
        [|apply normal_det_nonneg|apply (sum_sq_nonneg (fun v => v - c))].
      destruct H as [Hd Hs].
      assert (Hc : forall v, In v l -> v = c).
      { intros v Hv.
        pose proof (sum_sq_zero (fun v => v - c) l Hs v Hv) as E.
        cbn beta in E. replace v with (v - c + c) by ring.
        rewrite E. ring. }
      intros a b [<-|Ha] [<-|Hb]; trivial.
      * symmetry; now apply Hc.
      * now apply Hc.
      * rewrite (Hc a Ha). symmetry. now apply Hc.
    + intros H.
      assert (Hd : normal_det l = 0).
      { apply IH. intros a b Ha Hb. apply H; now right. }
      rewrite Hd, Qcplus_0_l.
      assert (E : map (fun v => sq (v - c)) l = map (fun _ => 0) l).
      { apply map_ext_in. intros v Hv.
        rewrite (H v c (or_intror Hv) (or_introl eq_refl)). unfold sq. ring. }
      rewrite E. clear. induction l as [|v l IHl]; [reflexivity|].
      cbn [map]. rewrite sum_cons, IHl. ring.
Qed.

(** Fewer than two distinct values means that all values coincide. *)
Lemma distinct_count_lt_2 (l : list Qc) :
  (distinct_count l < 2)%nat <-> all_equal l.
Proof.
  unfold distinct_count. split.
  - intros H a b Ha Hb.
    apply (nodup_In Qc_eq_dec) in Ha, Hb.
    destruct (nodup Qc_eq_dec l) as [|u [|v r]]; cbn in *; try lia;
      intuition congruence.
  - intros H.
    pose proof (NoDup_nodup Qc_eq_dec l) as N.
    assert (I : forall a b, In a (nodup Qc_eq_dec l) ->
                            In b (nodup Qc_eq_dec l) -> a = b).
    { intros a b Ha Hb. apply H; now apply (nodup_In Qc_eq_dec). }
    destruct (nodup Qc_eq_dec l) as [|u [|v r]]; cbn; try lia.
    exfalso. inversion N as [|? ? Hu _]; subst. apply Hu.
    left. apply I; cbn; auto.
Qed.

Lemma normal_det_distinct (l : list Qc) :
  normal_det l <> 0 <-> (2 <= distinct_count l)%nat.
Proof.
  rewrite normal_det_zero_iff, <- distinct_count_lt_2. lia.
Qed.

(** * The least-squares line *)










(** * np.polyfit *)

Lemma Qc_two_neq_0 : two <> 0.
Proof.
  intros H. apply (f_equal this) in H. vm_compute in H. discriminate H.
Qed.

Lemma Qc_mul_nonneg (a b : Qc) : 0 <= a -> 0 <= b -> 0 <= a * b.
Proof.
  intros Ha Hb. rewrite <- (Qcmult_0_l b). now apply Qcmult_le_compat_r.
Qed.

Lemma dot_self (x : list Qc) : dot x x = sum (map (fun t => sq t) x).
Proof.
  induction x as [|t x IH]; [reflexivity|].
  cbn [map]. now rewrite dot_cons, sum_cons, IH.
Qed.

Lemma dot_self_zero (x : list Qc) :
  dot x x = 0 -> forall t, In t x -> t = 0.
Proof.
  rewrite dot_self. intros H t Ht.
  exact (sum_sq_zero (fun t => t) x H t Ht).
Qed.


(** A window that is not all zero passes the scaling. *)
Lemma distinct_dot_self (x : list Qc) : normal_det x <> 0 -> dot x x <> 0.
Proof.
  intros Hd H0. apply Hd. apply normal_det_zero_iff.
  intros a b Ha Hb.
  now rewrite (dot_self_zero x H0 a Ha), (dot_self_zero x H0 b Hb).
Qed.

(** Passing the cut-off needs two distinct abscissae. *)
Lemma full_rank_det (x : list Qc) : full_rank x = true -> normal_det x <> 0.
Proof.
  unfold full_rank. intros H. apply andb_true_iff in H. destruct H as [_ H].
  apply Qc_ltb_true in H. intros D0. unfold normal_det in D0.
  assert (E : Qc_of_nat (length x) * dot x x = sum x * sum x).
  { replace (Qc_of_nat (length x) * dot x x)
      with (Qc_of_nat (length x) * dot x x - sum x * sum x + sum x * sum x)
      by ring.
    rewrite D0. ring. }
  rewrite E in H. apply (Qclt_not_le _ _ H). apply Qcle_minus_iff.
  replace (sum x * sum x * ((1 + rcond x * rcond x) * (1 + rcond x * rcond x))
           + - ((1 - rcond x * rcond x) * (1 - rcond x * rcond x)
                * (sum x * sum x)))
    with (two * two * ((rcond x * rcond x) * (sum x * sum x)))
    by (unfold two; ring).
  apply Qc_mul_nonneg.
  - apply Qc_sq_nonneg.
  - apply Qc_mul_nonneg; apply Qc_sq_nonneg.
Qed.

Lemma full_rank_distinct (x : list Qc) :
  full_rank x = true -> (2 <= distinct_count x)%nat.
Proof. intros H. now apply normal_det_distinct, full_rank_det. Qed.


Lemma polyfit_full_rank (x y : list Qc) :
  length x = length y -> full_rank x = true ->
  polyfit x y = inr (ols_slope x y, ols_intercept x y).
Proof.
  intros Hlen Hr. pose proof (full_rank_det x Hr) as Hd. unfold polyfit.
  destruct x as [|c x].
  - exfalso. apply Hd. apply normal_det_zero_iff. intros ? ? [].
  - rewrite Hlen, Nat.eqb_refl. cbn [negb].
    apply distinct_dot_self, Qc_eqb_false in Hd. rewrite <- Hlen, Hd, Hr.
    reflexivity.
Qed.

(** Below the cut-off, on a window that is not all zero, the fit does not
    fail either: lstsq returns its minimum-norm solution. *)
Lemma polyfit_below_cutoff (x y : list Qc) :
  length x = length y -> dot x x <> 0 -> full_rank x = false ->
  polyfit x y = inr (rank1_slope x y, rank1_intercept x y).
Proof.
  intros Hlen Hd Hr. unfold polyfit.
  destruct x as [|c x]; [now contradiction Hd|].
  rewrite Hlen, Nat.eqb_refl. cbn [negb].
  apply Qc_eqb_false in Hd. rewrite <- Hlen, Hd, Hr. reflexivity.
Qed.





(** * Slices *)

Lemma slice_prefix {A : Type} (k : Z) (l : list A) :
  (0 <= k)%Z -> slice None (Some k) l = firstn (Z.to_nat k) l.
Proof.
  intros Hk. unfold slice, slice_bound.
  destruct (Z.ltb_spec k 0); [lia|].
  cbn [skipn]. rewrite Nat.sub_0_r.
  destruct (Nat.le_ge_cases (Z.to_nat k) (length l)).
  - now rewrite Nat.min_l.
  - rewrite Nat.min_r by trivial. rewrite firstn_all.
    symmetry. now apply firstn_all2.
Qed.

Lemma slice_suffix {A : Type} (k : Z) (l : list A) :
  (0 <= k)%Z -> slice (Some k) None l = skipn (Z.to_nat k) l.
Proof.
  intros Hk. unfold slice, slice_bound.
  destruct (Z.ltb_spec k 0); [lia|].
  destruct (Nat.le_ge_cases (Z.to_nat k) (length l)).
  - rewrite Nat.min_l by trivial.
    apply firstn_all2. rewrite length_skipn. lia.
  - rewrite Nat.min_r by trivial. rewrite Nat.sub_diag, skipn_all.
    symmetry. now apply skipn_all2.
Qed.

Lemma slice_inner {A : Type} (l : list A) :
  slice (Some 1%Z) (Some (-1)%Z) l = firstn (length l - 2) (skipn 1 l).
Proof.
  unfold slice, slice_bound. cbn [Z.ltb Z.compare].
  destruct l as [|a l]; [reflexivity|].
  cbn [length]. rewrite Nat.min_l by (cbn; lia).
  replace (Z.to_nat (Z.max 0 (-1 + Z.of_nat (S (length l))))) with (length l)
    by lia.
  change (Z.to_nat 1) with 1%nat. reflexivity.
Qed.

Lemma length_slice_inner {A : Type} (l : list A) :
  length (slice (Some 1%Z) (Some (-1)%Z) l) = (length l - 2)%nat.
Proof. rewrite slice_inner, length_firstn, length_skipn. lia. Qed.

Lemma nth_slice_inner (l : list Qc) (j : nat) :
  (j < length l - 2)%nat ->
  nth j (slice (Some 1%Z) (Some (-1)%Z) l) 0 = nth (S j) l 0.
Proof.
  intros Hj. rewrite slice_inner, nth_firstn, nth_skipn.
  destruct (Nat.ltb_spec j (length l - 2)); [reflexivity|lia].
Qed.

(** * The loader *)

Lemma load_grid_returns (df : DataFrame) (r0 : list Qc) (rest : list (list Qc)) :
  rows df = r0 :: rest -> n_columns df <> 0%nat ->
  load_grid df
  = Return (slice (Some 1%Z) (Some (-1)%Z) r0,
            map (fun row => last row 0) (skipn 2 (rows df)),
            {| shape1 := n_columns df - 2;
               data := map (slice (Some 1%Z) (Some (-1)%Z))
                           (skipn 2 (rows df)) |}).
Proof.
  intros Hr Hc. unfold load_grid, iloc_row, iloc_last_column, iloc_block.
  rewrite Hr. cbn [nth_error bind].
  destruct (n_columns df) as [|n] eqn:En; [congruence|].
  cbn [bind]. rewrite length_slice_inner, repeat_length.
  rewrite (slice_suffix 2) by lia. reflexivity.
Qed.

Lemma load_grid_inv (df : DataFrame) conc times rdata :
  load_grid df = Return (conc, times, rdata) ->
  exists r0 rest,
    rows df = r0 :: rest /\ n_columns df <> 0%nat /\
    conc = slice (Some 1%Z) (Some (-1)%Z) r0 /\
    times = map (fun row => last row 0) (skipn 2 (rows df)) /\
    rdata = {| shape1 := n_columns df - 2;
               data := map (slice (Some 1%Z) (Some (-1)%Z))
                           (skipn 2 (rows df)) |}.
Proof.
  intros H.
  destruct (rows df) as [|r0 rest] eqn:Hr.
  - unfold load_grid, iloc_row in H. rewrite Hr in H. discriminate.
  - destruct (Nat.eq_dec (n_columns df) 0) as [Hc|Hc].
    + unfold load_grid, iloc_row, iloc_last_column in H.
      rewrite Hr, Hc in H. discriminate.
    + rewrite (load_grid_returns df r0 rest Hr Hc) in H.
      injection H as <- <- <-. exists r0, rest. rewrite Hr. auto.
Qed.


Lemma load_grid_columns (df : DataFrame) conc times rdata :
  rectangular df ->
  load_grid df = Return (conc, times, rdata) ->
  length conc = shape1 rdata /\ shape1 rdata = (n_columns df - 2)%nat.
Proof.
  intros Hrect H. apply load_grid_inv in H.
  destruct H as (r0 & rest & Hr & _ & -> & _ & ->).
  cbn [shape1]. split; trivial. rewrite length_slice_inner.
  unfold rectangular in Hrect. rewrite Hr in Hrect.
  inversion Hrect as [|? ? H0 _]; subst. now rewrite H0.
Qed.

Lemma last_nth (l : list Qc) : last l 0 = nth (length l - 1) l 0.
Proof.
  induction l as [|a l IH]; [reflexivity|].
  destruct l as [|b l]; [reflexivity|].
  change (last (a :: b :: l) 0) with (last (b :: l) 0). rewrite IH.
  cbn [length].
  replace (S (S (length l)) - 1)%nat with (S (S (length l) - 1)) by lia.
  reflexivity.
Qed.

(** * The rate loop *)

Lemma rate_loop_returns (t : list Qc) (a : ndarray2) (f : nat -> Qc * Qc) :
  forall (cols : list nat) (acc : list Qc),
  (forall i, In i cols ->
     polyfit (slice None (Some num_points_for_slope) t)
             (column_window a num_points_for_slope i) = inr (f i)) ->
  rate_loop t a cols acc = Return (acc ++ map (fun i => - fst (f i)) cols).
Proof.
  induction cols as [|i cols IH]; intros acc H.
  - cbn. now rewrite app_nil_r.
  - cbn [rate_loop]. rewrite (H i (or_introl eq_refl)). cbn [call bind].
    rewrite IH by (intros j Hj; apply H; now right).
    cbn [map]. now rewrite <- app_assoc.
Qed.

Lemma rate_loop_untyped (t : list Qc) (a : ndarray2) (e : typed_error) :
  forall (cols : list nat) (acc : list Qc),
  rate_loop t a cols acc <> Raise (Typed e).
Proof.
  induction cols as [|i cols IH]; intros acc; cbn [rate_loop].
  - discriminate.
  - destruct (polyfit _ _) as [x|fit]; cbn [call bind].
    + discriminate.
    + apply IH.
Qed.

Lemma length_column_window (a : ndarray2) (k : Z) (i : nat) :
  length (column_window a k i) = length (slice None (Some k) (data a)).
Proof. unfold column_window. apply length_map. Qed.

Lemma window_lengths (t : list Qc) (a : ndarray2) (i : nat) :
  length t = length (data a) ->
  length (slice None (Some num_points_for_slope) t)
  = length (column_window a num_points_for_slope i).
Proof.
  intros H. rewrite length_column_window.
  unfold num_points_for_slope. rewrite !slice_prefix by lia.
  now rewrite !length_firstn, H.
Qed.

Lemma polyfit_returns (x y : list Qc) :
  length x = length y -> dot x x <> 0 ->
  polyfit x y = inr (fitted_slope x y, fitted_intercept x y).
Proof.
  intros Hlen Hd. unfold fitted_slope, fitted_intercept.
  destruct (full_rank x) eqn:Hr.
  - now apply polyfit_full_rank.
  - now apply polyfit_below_cutoff.
Qed.

(** On a window that is not all zero every column gets the negated slope
    of the fit that [polyfit] returns. *)
Lemma initial_velocities_returns (t : list Qc) (a : ndarray2) :
  length t = length (data a) ->
  dot (slice None (Some num_points_for_slope) t)
      (slice None (Some num_points_for_slope) t) <> 0 ->
  initial_velocities t a
  = Return (map (fun i => - fitted_slope
                              (slice None (Some num_points_for_slope) t)
                              (column_window a num_points_for_slope i))
                (seq 0 (shape1 a))).
Proof.
  intros Hlen Hd. unfold initial_velocities.
  rewrite (rate_loop_returns t a
             (fun i => (fitted_slope
                          (slice None (Some num_points_for_slope) t)
                          (column_window a num_points_for_slope i),
                        fitted_intercept
                          (slice None (Some num_points_for_slope) t)
                          (column_window a num_points_for_slope i)))).
  - reflexivity.
  - intros i _. apply polyfit_returns; trivial. now apply window_lengths.
Qed.

(** On a window that passes the cut-off every column gets the negated
    slope of its least-squares line. *)
Lemma initial_velocities_full_rank (t : list Qc) (a : ndarray2) :
  length t = length (data a) ->
  full_rank (slice None (Some num_points_for_slope) t) = true ->
  initial_velocities t a
  = Return (map (fun i => - ols_slope
                              (slice None (Some num_points_for_slope) t)
                              (column_window a num_points_for_slope i))
                (seq 0 (shape1 a))).
Proof.
  intros Hlen Hr.
  rewrite initial_velocities_returns;
    [|exact Hlen|now apply distinct_dot_self, full_rank_det].
  unfold fitted_slope. now rewrite Hr.
Qed.


Lemma In_firstn {A : Type} (a : A) (n : nat) (l : list A) :
  In a (firstn n l) -> In a l.
Proof.
  intros H. rewrite <- (firstn_skipn n l). apply in_or_app. now left.
Qed.



(** * The Rate Estimator *)


(** Closed equalities between rationals, by evaluation. *)
Ltac qc_eq :=
  match goal with
  | |- @eq Qc _ _ => apply Qc_is_canon; vm_compute; reflexivity
  end.

Ltac qc_struct :=
  repeat first [ qc_eq | reflexivity | apply f_equal2 | apply f_equal ].



Example sample_velocities :
  initial_velocities sample_times sample_signal
  = Return [Qc_of_Z 2; Qc_of_Z 3].
Proof. vm_compute. qc_struct. Qed.



Lemma rate_loop_raises (t : list Qc) (a : ndarray2) (e : py_exception)
    (i : nat) (cols : list nat) (acc : list Qc) :
  polyfit (slice None (Some num_points_for_slope) t)
          (column_window a num_points_for_slope i) = inl e ->
  rate_loop t a (i :: cols) acc = Raise (Builtin e).
Proof. intros H. cbn [rate_loop]. now rewrite H. Qed.

Lemma initial_velocities_untyped (t : list Qc) (a : ndarray2) (e : typed_error) :
  initial_velocities t a <> Raise (Typed e).
Proof. apply rate_loop_untyped. Qed.






(** The window [0, 0, 0, 0, 1] has two distinct times and passes the
    cut-off: the least-squares slope comes out. *)
Example corner_window_rate :
  (distinct_count (slice None (Some num_points_for_slope) corner_times) = 2)%nat /\
  full_rank (slice None (Some num_points_for_slope) corner_times) = true /\
  initial_velocities corner_times ramp_signal = Return [Q2Qc (5 # 2)].
Proof.
  split; [reflexivity|]. split; [vm_compute; reflexivity|].
  vm_compute. qc_struct.
Qed.

(** The three outcomes on windows with fewer than two distinct times. *)
Example degenerate_window_outcomes :
  initial_velocities [] {| shape1 := 1; data := [] |}
  = Raise (Builtin TypeError) /\
  initial_velocities flat_times ramp_signal = Return [Q2Qc (- 3 # 2)] /\
  initial_velocities (row [0; 0; 0; 0; 0]%Z) ramp_signal
  = Raise (Builtin LinAlgError).
Proof.
  split; [reflexivity|]. split; [vm_compute; qc_struct|].
  vm_compute. reflexivity.
Qed.




Example short_window_rates :
  full_rank short_times = true /\
  initial_velocities short_times short_signal
  = Return [Qc_of_Z 2; Qc_of_Z 3].
Proof. split; [vm_compute; reflexivity|]. vm_compute. qc_struct. Qed.

(** * The loader, cell by cell *)

Lemma nth_map_default {A B : Type} (f : A -> B) (l : list A) (r : nat)
    (d : A) (d' : B) :
  f d = d' -> nth r (map f l) d' = f (nth r l d).
Proof. intros <-. apply map_nth. Qed.

(** C8, as the program behaves.  On a rectangular grid with a first row and
    a column, the concentrations are row 0 over the columns strictly between
    the first and the last, the times are the last column from row 2 on, and
    the signal matrix is the rows from 2 on over the same inner columns,
    not over all the columns but the last. *)
Theorem grid_layout :
  forall (df : DataFrame),
    rectangular df -> rows df <> [] -> n_columns df <> 0%nat ->
    exists conc times rdata,
      load_grid df = Return (conc, times, rdata) /\
      length conc = (n_columns df - 2)%nat /\
      (forall j, (j < n_columns df - 2)%nat ->
                 nth j conc 0 = cell df 0 (S j)) /\
      length times = (length (rows df) - 2)%nat /\
      (forall r, (r < length (rows df) - 2)%nat ->
                 nth r times 0 = cell df (r + 2) (n_columns df - 1)) /\
      shape1 rdata = (n_columns df - 2)%nat /\
      length (data rdata) = (length (rows df) - 2)%nat /\
      (forall r j, (r < length (rows df) - 2)%nat ->
                   (j < n_columns df - 2)%nat ->
                   nth j (nth r (data rdata) []) 0 = cell df (r + 2) (S j)).
Proof.
  intros df Hrect Hrows Hcols.
  destruct (rows df) as [|r0 rest] eqn:Hr; [congruence|].
  do 3 eexists. split; [exact (load_grid_returns df r0 rest Hr Hcols)|].
  assert (Hlen : forall r, (r < length (rows df))%nat ->
                           length (nth r (rows df) []) = n_columns df).
  { intros r Hlt. unfold rectangular in Hrect. rewrite Forall_forall in Hrect.
    apply Hrect. now apply nth_In. }
  assert (H0 : length r0 = n_columns df).
  { specialize (Hlen 0%nat). rewrite Hr in Hlen. apply Hlen. cbn. lia. }
  rewrite <- Hr. cbn [shape1 data].
  repeat split.
  - now rewrite length_slice_inner, H0.
  - intros j Hj. unfold cell. rewrite Hr. cbn [nth].
    apply nth_slice_inner. now rewrite H0.
  - now rewrite length_map, length_skipn.
  - intros r Hlt.
    rewrite (nth_map_default _ _ _ [] 0) by reflexivity.
    rewrite nth_skipn, last_nth.
    unfold cell. rewrite (Nat.add_comm r 2), Hlen by lia. reflexivity.
  - now rewrite length_map, length_skipn.
  - intros r j Hlt Hj.
    rewrite (nth_map_default _ _ _ [] []) by reflexivity.
    rewrite nth_skipn.
    unfold cell. rewrite (Nat.add_comm r 2).
    apply nth_slice_inner. rewrite Hlen by lia. exact Hj.
Qed.

Lemma grid_layout_witness :
  exists conc times rdata,
    load_grid sample_grid = Return (conc, times, rdata) /\
    length conc = (n_columns sample_grid - 2)%nat /\
    (forall j, (j < n_columns sample_grid - 2)%nat ->
               nth j conc 0 = cell sample_grid 0 (S j)) /\
    length times = (length (rows sample_grid) - 2)%nat /\
    (forall r, (r < length (rows sample_grid) - 2)%nat ->
               nth r times 0
               = cell sample_grid (r + 2) (n_columns sample_grid - 1)) /\
    shape1 rdata = (n_columns sample_grid - 2)%nat /\
    length (data rdata) = (length (rows sample_grid) - 2)%nat /\
    (forall r j, (r < length (rows sample_grid) - 2)%nat ->
                 (j < n_columns sample_grid - 2)%nat ->
                 nth j (nth r (data rdata) []) 0
                 = cell sample_grid (r + 2) (S j)).
Proof.
  apply (grid_layout sample_grid).
  - repeat constructor.
  - discriminate.
  - discriminate.
Defined.

(** Counterexample to C8 as stated: column 0 is not the last column, yet
    the signal matrix leaves it out. *)
Lemma first_column_is_left_out :
  exists conc times rdata,
    load_grid sample_grid = Return (conc, times, rdata) /\
    data rdata <> rows_from_2_all_but_last_column sample_grid /\
    map (@length Qc) (data rdata) = [2; 2; 2; 2; 2]%nat /\
    map (@length Qc) (rows_from_2_all_but_last_column sample_grid)
    = [3; 3; 3; 3; 3]%nat.
Proof.
  exists sample_concentrations, sample_times, sample_signal.
  split; [reflexivity|]. split; [|split; reflexivity].
  intros H. apply (f_equal (map (@length Qc))) in H. discriminate H.
Qed.

(** * The Kinetics Fitter *)

Lemma fit_kinetics_returns (ls : optimizer) (conc rates : list Qc)
    (e Vmax Km : Qc) :
  curve_fit ls michaelis_menten conc rates (Finite 0, PosInf)
  = inr (Vmax, Km) ->
  fit_kinetics ls conc rates e
  = Return [ ("Km (µM)", Finite Km);
             ("Vmax (µM/s)", Finite Vmax);
             ("kcat (s^-1)", truediv (Finite Vmax) (Finite e));
             ("Catalytic Efficiency (M^-1s^-1)",
              truediv (truediv (Finite Vmax) (Finite e)) (Finite Km)) ]%string.
Proof. intros H. unfold fit_kinetics. now rewrite H. Qed.

Lemma fit_kinetics_raises (ls : optimizer) (conc rates : list Qc)
    (e : Qc) (x : py_exception) :
  curve_fit ls michaelis_menten conc rates (Finite 0, PosInf) = inl x ->
  fit_kinetics ls conc rates e = Raise (Builtin x).
Proof. intros H. unfold fit_kinetics. now rewrite H. Qed.

Lemma fit_kinetics_inv (ls : optimizer) (conc rates : list Qc) (e : Qc)
    (results : results_dict) :
  fit_kinetics ls conc rates e = Return results ->
  exists Vmax Km,
    curve_fit ls michaelis_menten conc rates (Finite 0, PosInf)
    = inr (Vmax, Km) /\
    results
    = [ ("Km (µM)", Finite Km);
        ("Vmax (µM/s)", Finite Vmax);
        ("kcat (s^-1)", truediv (Finite Vmax) (Finite e));
        ("Catalytic Efficiency (M^-1s^-1)",
         truediv (truediv (Finite Vmax) (Finite e)) (Finite Km)) ]%string.
Proof.
  intros H.
  destruct (curve_fit ls michaelis_menten conc rates (Finite 0, PosInf))
    as [x|[Vmax Km]] eqn:E.
  - rewrite (fit_kinetics_raises _ _ _ _ _ E) in H. discriminate.
  - rewrite (fit_kinetics_returns _ _ _ _ _ _ E) in H.
    injection H as <-. now exists Vmax, Km.
Qed.

Lemma fit_kinetics_untyped (ls : optimizer) (conc rates : list Qc) (e : Qc)
    (err : typed_error) :
  fit_kinetics ls conc rates e <> Raise (Typed err).
Proof.
  destruct (curve_fit ls michaelis_menten conc rates (Finite 0, PosInf))
    as [x|[Vmax Km]] eqn:E.
  - rewrite (fit_kinetics_raises _ _ _ _ _ E). discriminate.
  - rewrite (fit_kinetics_returns _ _ _ _ _ _ E). discriminate.
Qed.

Lemma load_grid_untyped (df : DataFrame) (err : typed_error) :
  load_grid df <> Raise (Typed err).
Proof.
  unfold load_grid, iloc_row, iloc_last_column.
  destruct (nth_error (rows df) 0); cbn [bind]; [|discriminate].
  destruct (n_columns df); cbn [bind]; discriminate.
Qed.

Lemma analyze_inv (ls : optimizer) (df : DataFrame) (e : Qc)
    (results : results_dict) :
  analyze_enzyme_kinetics ls df e = Return results ->
  exists conc times rdata rates,
    load_grid df = Return (conc, times, rdata) /\
    initial_velocities times rdata = Return rates /\
    fit_kinetics ls conc rates e = Return results.
Proof.
  unfold analyze_enzyme_kinetics. intros H.
  destruct (load_grid df) as [[[conc times] rdata]|x] eqn:El;
    cbn [bind] in H; [|discriminate].
  destruct (initial_velocities times rdata) as [rates|x] eqn:Ev;
    cbn [bind] in H; [|discriminate].
  now exists conc, times, rdata, rates.
Qed.

Lemma analyze_untyped (ls : optimizer) (df : DataFrame) (e : Qc)
    (err : typed_error) :
  analyze_enzyme_kinetics ls df e <> Raise (Typed err).
Proof.
  unfold analyze_enzyme_kinetics.
  destruct (load_grid df) as [[[conc times] rdata]|x] eqn:El; cbn [bind].
  - destruct (initial_velocities times rdata) as [rates|x] eqn:Ev; cbn [bind].
    + apply fit_kinetics_untyped.
    + intros H. injection H as H. subst x.
      exact (initial_velocities_untyped times rdata err Ev).
  - intros H. injection H as H. subst x.
    exact (load_grid_untyped df err El).
Qed.

(** The rate law away from its pole. *)
Lemma michaelis_menten_law (S : list Qc) (Vmax Km : Qc) :
  (forall s, In s S -> Km + s <> 0) ->
  michaelis_menten S Vmax Km
  = map (fun s => Finite (Vmax * s / (Km + s))) S.
Proof.
  intros H. unfold michaelis_menten. apply map_ext_in. intros s Hs.
  unfold truediv. apply H, Qc_eqb_false in Hs. now rewrite Hs.
Qed.


(** * Division *)

Lemma truediv_finite (x y : Qc) :
  y <> 0 -> truediv (Finite x) (Finite y) = Finite (x / y).
Proof. intros H. unfold truediv. apply Qc_eqb_false in H. now rewrite H. Qed.

Lemma truediv_pos_zero (x : Qc) :
  0 < x -> truediv (Finite x) (Finite 0) = PosInf.
Proof.
  intros H. unfold truediv.
  assert (E : Qc_eqb 0 0 = true) by now apply Qc_eqb_true.
  rewrite E.
  assert (N : Qc_eqb x 0 = false).
  { apply Qc_eqb_false. intros ->. now apply (Qclt_not_eq 0 0). }
  rewrite N. apply Qc_ltb_true in H. now rewrite H.
Qed.

Lemma truediv_zero_zero : truediv (Finite 0) (Finite 0) = NaN.
Proof.
  unfold truediv.
  assert (E : Qc_eqb 0 0 = true) by now apply Qc_eqb_true.
  now rewrite E.
Qed.

(** The special cases of [truediv], side by side with binary64 division. *)
Example truediv_special_values :
  (truediv (Finite (Qc_of_Z 100)) (Finite 0) = PosInf /\
   (100 / 0 = infinity)%float) /\
  (truediv (Finite (Qc_of_Z (-100))) (Finite 0) = NegInf /\
   (-100 / 0 = neg_infinity)%float) /\
  (truediv (Finite 0) (Finite 0) = NaN /\
   PrimFloat.is_nan (0 / 0)%float = true) /\
  (truediv PosInf (Finite (Qc_of_Z 10)) = PosInf /\
   (infinity / 10 = infinity)%float) /\
  (truediv (Finite (Qc_of_Z 100)) PosInf = Finite 0 /\
   (100 / infinity = 0)%float) /\
  (truediv NaN (Finite (Qc_of_Z 10)) = NaN /\
   PrimFloat.is_nan (nan / 10)%float = true).
Proof. repeat split; reflexivity. Qed.

Lemma Qc_div_pos (a b : Qc) : 0 < a -> 0 < b -> 0 < a / b.
Proof.
  intros Ha Hb. apply Qcnot_le_lt. intros H.
  apply (Qcmult_le_compat_r _ _ b) in H; [|now apply Qclt_le_weak].
  replace (a / b * b) with a in H
    by (field; intros ->; now apply (Qclt_not_eq 0 0)).
  rewrite Qcmult_0_l in H. now apply (Qclt_not_le _ _ Ha).
Qed.

Lemma tiny_pos : 0 < tiny.
Proof. vm_compute. reflexivity. Qed.

Lemma Qc_midpoint (l h : Qc) : l < h -> l < (l + h) / two /\ (l + h) / two < h.
Proof.
  intros H. pose proof Qc_two_neq_0 as H2.
  assert (Hd : 0 < (h - l) / two).
  { apply Qc_div_pos.
    - apply (proj1 (Qclt_minus_iff l h)) in H. exact H.
    - vm_compute. reflexivity. }
  split; apply (proj2 (Qclt_minus_iff _ _)).
  - replace ((l + h) / two + - l) with ((h - l) / two); [exact Hd|].
    unfold two in *. field. exact H2.
  - replace (h + - ((l + h) / two)) with ((h - l) / two); [exact Hd|].
    unfold two in *. field. exact H2.
Qed.

(** The stand-in returns a point strictly inside every non-empty box. *)
Lemma interior_in_box (lo hi : float64) (v : Qc) :
  feasible lo hi = true ->
  f64_lt lo (Finite (interior lo hi v)) /\ f64_lt (Finite (interior lo hi v)) hi.
Proof.
  unfold feasible, interior, f64_lt.
  destruct lo as [l| | |], hi as [h| | |]; try discriminate; intros F.
  - apply Qc_ltb_true in F.
    destruct (Qc_ltb l v) eqn:E1; cbn [andb].
    + destruct (Qc_ltb v h) eqn:E2.
      * apply Qc_ltb_true in E1, E2. now split.
      * now apply Qc_midpoint.
    + now apply Qc_midpoint.
  - destruct (Qc_ltb l v) eqn:E1.
    + apply Qc_ltb_true in E1. now split.
    + split; trivial. apply (proj2 (Qclt_minus_iff _ _)).
      replace (l + tiny + - l) with tiny by ring. apply tiny_pos.
  - destruct (Qc_ltb v h) eqn:E2.
    + apply Qc_ltb_true in E2. now split.
    + split; trivial. apply (proj2 (Qclt_minus_iff _ _)).
      replace (h + - (h - tiny)) with tiny by ring. apply tiny_pos.
  - now split.
Qed.

Lemma f64_lt_le (a b : float64) : f64_lt a b -> f64_le a b.
Proof.
  destruct a, b; cbn; trivial; try contradiction. apply Qclt_le_weak.
Qed.

Lemma strictly_feasible_respects_bounds (ls : optimizer) :
  strictly_feasible ls -> respects_bounds ls.
Proof.
  intros H f x y lo hi Vmax Km E.
  destruct (H f x y lo hi Vmax Km E) as (A & B & C & D).
  repeat split; now apply f64_lt_le.
Qed.

Lemma converges_to_strictly_feasible (p : Qc * Qc) :
  strictly_feasible (converges_to p).
Proof.
  intros f x y lo hi Vmax Km. unfold converges_to.
  destruct (feasible lo hi) eqn:F; [|discriminate].
  intros H. injection H as <- <-.
  destruct (interior_in_box lo hi (fst p) F), (interior_in_box lo hi (snd p) F).
  auto.
Qed.

Lemma converges_to_respects_bounds (p : Qc * Qc) :
  respects_bounds (converges_to p).
Proof.
  apply strictly_feasible_respects_bounds, converges_to_strictly_feasible.
Qed.

Lemma curve_fit_inv (ls : optimizer) (f : model_function)
    (x y : list Qc) (b : float64 * float64) (p : Qc * Qc) :
  curve_fit ls f x y b = inr p -> y <> [] /\ ls f x y b = inr p.
Proof. destruct y; cbn; [discriminate|]. intros H. now split. Qed.

(** * Fitted parameters and derived constants *)

(** C2.  The fit is the bounded fit of [michaelis_menten] to the
    (concentration, velocity) pairs with the box [0, +inf) for both
    parameters; with a solver that keeps its answer in the box, the Vmax and
    Km of the result are non-negative.  Away from the pole the model is
    [Vmax * s / (Km + s)]. *)
Theorem fitted_parameters_are_nonnegative :
  forall (ls : optimizer) (df : DataFrame) (e : Qc) (results : results_dict),
    respects_bounds ls ->
    analyze_enzyme_kinetics ls df e = Return results ->
    exists conc times rdata rates Vmax Km,
      load_grid df = Return (conc, times, rdata) /\
      initial_velocities times rdata = Return rates /\
      ls michaelis_menten conc rates (Finite 0, PosInf) = inr (Vmax, Km) /\
      lookup "Vmax (µM/s)" results = Some (Finite Vmax) /\
      lookup "Km (µM)" results = Some (Finite Km) /\
      0 <= Vmax /\ 0 <= Km /\
      (forall S, (forall s, In s S -> Km + s <> 0) ->
                 michaelis_menten S Vmax Km
                 = map (fun s => Finite (Vmax * s / (Km + s))) S).
Proof.
  intros ls df e results Hb H.
  apply analyze_inv in H.
  destruct H as (conc & times & rdata & rates & Hl & Hv & Hf).
  apply fit_kinetics_inv in Hf. destruct Hf as (Vmax & Km & Hc & ->).
  apply curve_fit_inv in Hc. destruct Hc as [_ Hc].
  destruct (Hb _ _ _ _ _ _ _ Hc) as (H1 & _ & H2 & _).
  exists conc, times, rdata, rates, Vmax, Km.
  repeat split; trivial. intros S HS. now apply michaelis_menten_law.
Qed.

Lemma scenario_analysis :
  analyze_enzyme_kinetics (converges_to (Qc_of_Z 100, Qc_of_Z 10))
                          scenario_grid default_enzyme_concentration
  = Return scenario_results.
Proof. vm_compute. qc_struct. Qed.

Lemma fitted_parameters_are_nonnegative_witness :
  exists conc times rdata rates Vmax Km,
    load_grid scenario_grid = Return (conc, times, rdata) /\
    initial_velocities times rdata = Return rates /\
    converges_to (Qc_of_Z 100, Qc_of_Z 10) michaelis_menten conc rates
                 (Finite 0, PosInf) = inr (Vmax, Km) /\
    lookup "Vmax (µM/s)" scenario_results = Some (Finite Vmax) /\
    lookup "Km (µM)" scenario_results = Some (Finite Km) /\
    0 <= Vmax /\ 0 <= Km /\
    (forall S, (forall s, In s S -> Km + s <> 0) ->
               michaelis_menten S Vmax Km
               = map (fun s => Finite (Vmax * s / (Km + s))) S).
Proof.
  apply (fitted_parameters_are_nonnegative
           (converges_to (Qc_of_Z 100, Qc_of_Z 10)) scenario_grid
           default_enzyme_concentration scenario_results).
  - apply converges_to_respects_bounds.
  - vm_compute. qc_struct.
Defined.

(** C3.  On a successful run the dictionary holds the fitted Vmax and Km,
    kcat = Vmax / enzyme_concentration and efficiency = kcat / Km (NumPy
    divisions; ordinary quotients when the divisors are not zero).  The
    default enzyme concentration is 20e-12. *)
Theorem derived_constants :
  forall (ls : optimizer) (df : DataFrame) (e : Qc) (results : results_dict),
    analyze_enzyme_kinetics ls df e = Return results ->
    exists conc times rdata rates Vmax Km kcat,
      load_grid df = Return (conc, times, rdata) /\
      initial_velocities times rdata = Return rates /\
      curve_fit ls michaelis_menten conc rates (Finite 0, PosInf)
      = inr (Vmax, Km) /\
      lookup "Vmax (µM/s)" results = Some (Finite Vmax) /\
      lookup "Km (µM)" results = Some (Finite Km) /\
      lookup "kcat (s^-1)" results = Some kcat /\
      kcat = truediv (Finite Vmax) (Finite e) /\
      lookup "Catalytic Efficiency (M^-1s^-1)" results
      = Some (truediv kcat (Finite Km)) /\
      (e <> 0 -> kcat = Finite (Vmax / e)) /\
      (e <> 0 -> Km <> 0 -> truediv kcat (Finite Km) = Finite (Vmax / e / Km)) /\
      default_enzyme_concentration * Qc_of_Z (10 ^ 12) = Qc_of_Z 20.
Proof.
  intros ls df e results H.
  apply analyze_inv in H.
  destruct H as (conc & times & rdata & rates & Hl & Hv & Hf).
  apply fit_kinetics_inv in Hf. destruct Hf as (Vmax & Km & Hc & ->).
  exists conc, times, rdata, rates, Vmax, Km, (truediv (Finite Vmax) (Finite e)).
  repeat split; trivial.
  - intros He. now apply truediv_finite.
  - intros He Hk. rewrite (truediv_finite Vmax e He).
    now apply truediv_finite.
  - apply Qc_is_canon. reflexivity.
Qed.

Lemma derived_constants_witness :
  exists conc times rdata rates Vmax Km kcat,
    load_grid scenario_grid = Return (conc, times, rdata) /\
    initial_velocities times rdata = Return rates /\
    curve_fit (converges_to (Qc_of_Z 100, Qc_of_Z 10)) michaelis_menten
              conc rates (Finite 0, PosInf)
    = inr (Vmax, Km) /\
    lookup "Vmax (µM/s)" scenario_results = Some (Finite Vmax) /\
    lookup "Km (µM)" scenario_results = Some (Finite Km) /\
    lookup "kcat (s^-1)" scenario_results = Some kcat /\
    kcat = truediv (Finite Vmax) (Finite default_enzyme_concentration) /\
    lookup "Catalytic Efficiency (M^-1s^-1)" scenario_results
    = Some (truediv kcat (Finite Km)) /\
    (default_enzyme_concentration <> 0 ->
     kcat = Finite (Vmax / default_enzyme_concentration)) /\
    (default_enzyme_concentration <> 0 -> Km <> 0 ->
     truediv kcat (Finite Km)
     = Finite (Vmax / default_enzyme_concentration / Km)) /\
    default_enzyme_concentration * Qc_of_Z (10 ^ 12) = Qc_of_Z 20.
Proof.
  apply (derived_constants (converges_to (Qc_of_Z 100, Qc_of_Z 10))
                           scenario_grid).
  vm_compute. qc_struct.
Defined.

(** The scenario of the design document: the velocities follow the rate law
    at Vmax = 100 and Km = 10, kcat is Vmax / 20e-12 and the efficiency is
    kcat / 10. *)
Example scenario_derived_constants :
  michaelis_menten scenario_concentrations (Qc_of_Z 100) (Qc_of_Z 10)
  = map (fun c => Finite (scenario_velocity c)) scenario_concentrations /\
  lookup "kcat (s^-1)" scenario_results
  = Some (Finite (Qc_of_Z 100 / Q2Qc (20 # 1000000000000))) /\
  lookup "Catalytic Efficiency (M^-1s^-1)" scenario_results
  = Some (Finite (Qc_of_Z 5000000000000 / Qc_of_Z 10)).
Proof. repeat split; vm_compute; qc_struct. Qed.

(** C5, as the program behaves.  The Kinetics Fitter counts no distinct
    concentrations and raises no error of the taxonomy.  Without any
    velocity, [curve_fit] refuses the empty data with ValueError; with at
    least one, the outcome is the solver's: its parameters give the result
    dictionary, its exception is passed on. *)
Theorem concentration_count_is_not_checked :
  forall (ls : optimizer) (conc rates : list Qc) (e : Qc),
    (forall err, fit_kinetics ls conc rates e <> Raise (Typed err)) /\
    (rates = [] -> fit_kinetics ls conc rates e = Raise (Builtin ValueError)) /\
    (rates <> [] ->
     forall Vmax Km,
       ls michaelis_menten conc rates (Finite 0, PosInf) = inr (Vmax, Km) ->
       exists results,
         fit_kinetics ls conc rates e = Return results /\
         lookup "Vmax (µM/s)" results = Some (Finite Vmax) /\
         lookup "Km (µM)" results = Some (Finite Km)) /\
    (rates <> [] ->
     forall x,
       ls michaelis_menten conc rates (Finite 0, PosInf) = inl x ->
       fit_kinetics ls conc rates e = Raise (Builtin x)).
Proof.
  intros ls conc rates e. split; [|split; [|split]].
  - intros err. apply fit_kinetics_untyped.
  - intros ->. now apply fit_kinetics_raises.
  - intros Hr Vmax Km H. eexists. split.
    + apply fit_kinetics_returns. destruct rates; [congruence|exact H].
    + split; reflexivity.
  - intros Hr x H. apply fit_kinetics_raises.
    destruct rates; [congruence|exact H].
Qed.

(** Counterexample to C5 as stated: a grid with a single concentration.
    The solver's answer (100, 10) reproduces the one velocity exactly, the
    analysis returns its dictionary, and no solver whatever could make it
    raise InsufficientDataError. *)
Lemma single_concentration_is_fitted :
  (exists times rdata,
      load_grid single_grid = Return ([Qc_of_Z 10], times, rdata) /\
      initial_velocities times rdata = Return [Qc_of_Z 50]) /\
  (distinct_count [Qc_of_Z 10] < 2)%nat /\
  michaelis_menten [Qc_of_Z 10] (Qc_of_Z 100) (Qc_of_Z 10)
  = [Finite (Qc_of_Z 50)] /\
  analyze_enzyme_kinetics (converges_to (Qc_of_Z 100, Qc_of_Z 10))
                          single_grid default_enzyme_concentration
  = Return scenario_results /\
  ~ (exists ls, analyze_enzyme_kinetics ls single_grid
                  default_enzyme_concentration
                = Raise (Typed InsufficientDataError)).
Proof.
  split; [|split; [|split; [|split]]].
  - do 2 eexists. split; [reflexivity|]. vm_compute. qc_struct.
  - vm_compute. lia.
  - vm_compute. qc_struct.
  - vm_compute. qc_struct.
  - intros [ls H]. now apply analyze_untyped in H.
Qed.

(** C6, as the program behaves.  The enzyme concentration is not
    validated.  With a value [<= 0] no error of the taxonomy is raised; if
    the run succeeds for some enzyme concentration it succeeds for this one
    as well, and kcat is the NumPy quotient Vmax / enzyme_concentration:
    the ordinary (non-positive) quotient for a negative concentration,
    +inf for 0 under a positive Vmax, NaN for 0 under Vmax = 0. *)
Theorem enzyme_concentration_is_not_validated :
  forall (ls : optimizer) (df : DataFrame) (e : Qc),
    e <= 0 ->
    (forall err, analyze_enzyme_kinetics ls df e <> Raise (Typed err)) /\
    (forall e' results',
        analyze_enzyme_kinetics ls df e' = Return results' ->
        exists results Vmax,
          analyze_enzyme_kinetics ls df e = Return results /\
          lookup "Vmax (µM/s)" results = Some (Finite Vmax) /\
          lookup "kcat (s^-1)" results
          = Some (truediv (Finite Vmax) (Finite e)) /\
          (e < 0 -> truediv (Finite Vmax) (Finite e) = Finite (Vmax / e)) /\
          (e = 0 -> 0 < Vmax -> truediv (Finite Vmax) (Finite e) = PosInf) /\
          (e = 0 -> Vmax = 0 -> truediv (Finite Vmax) (Finite e) = NaN)).
Proof.
  intros ls df e He. split.
  - intros err. apply analyze_untyped.
  - intros e' results' H.
    apply analyze_inv in H.
    destruct H as (conc & times & rdata & rates & Hl & Hv & Hf).
    apply fit_kinetics_inv in Hf. destruct Hf as (Vmax & Km & Hc & _).
    eexists. exists Vmax. split; [|split; [|split; [|split; [|split]]]].
    + unfold analyze_enzyme_kinetics. rewrite Hl. cbn [bind]. cbv beta iota.
      rewrite Hv. cbn [bind].
      exact (fit_kinetics_returns ls conc rates e Vmax Km Hc).
    + reflexivity.
    + reflexivity.
    + intros Hneg. apply truediv_finite. now apply Qclt_not_eq.
    + intros -> Hpos. now apply truediv_pos_zero.
    + intros -> ->. apply truediv_zero_zero.
Qed.

Lemma enzyme_concentration_is_not_validated_witness :
  (forall err,
      analyze_enzyme_kinetics (converges_to (Qc_of_Z 100, Qc_of_Z 10))
                              scenario_grid 0 <> Raise (Typed err)) /\
  (forall e' results',
      analyze_enzyme_kinetics (converges_to (Qc_of_Z 100, Qc_of_Z 10))
                              scenario_grid e' = Return results' ->
      exists results Vmax,
        analyze_enzyme_kinetics (converges_to (Qc_of_Z 100, Qc_of_Z 10))
                                scenario_grid 0 = Return results /\
        lookup "Vmax (µM/s)" results = Some (Finite Vmax) /\
        lookup "kcat (s^-1)" results
        = Some (truediv (Finite Vmax) (Finite 0)) /\
        (0 < 0 -> truediv (Finite Vmax) (Finite 0) = Finite (Vmax / 0)) /\
        (0 = 0 -> 0 < Vmax -> truediv (Finite Vmax) (Finite 0) = PosInf) /\
        (0 = 0 -> Vmax = 0 -> truediv (Finite Vmax) (Finite 0) = NaN)).
Proof.
  apply (enzyme_concentration_is_not_validated
           (converges_to (Qc_of_Z 100, Qc_of_Z 10)) scenario_grid 0).
  apply Qcle_refl.
Defined.

(** Counterexample to C6 as stated: the scenario grid analysed with
    enzyme concentration 0, and with -20e-12.  Both runs return numbers. *)
Lemma zero_enzyme_concentration_gives_numbers :
  analyze_enzyme_kinetics (converges_to (Qc_of_Z 100, Qc_of_Z 10))
                          scenario_grid 0
  = Return [ ("Km (µM)", Finite (Qc_of_Z 10));
             ("Vmax (µM/s)", Finite (Qc_of_Z 100));
             ("kcat (s^-1)", PosInf);
             ("Catalytic Efficiency (M^-1s^-1)", PosInf) ]%string /\
  analyze_enzyme_kinetics (converges_to (Qc_of_Z 100, Qc_of_Z 10))
                          scenario_grid (- default_enzyme_concentration)
  = Return [ ("Km (µM)", Finite (Qc_of_Z 10));
             ("Vmax (µM/s)", Finite (Qc_of_Z 100));
             ("kcat (s^-1)", Finite (Qc_of_Z (-5000000000000)));
             ("Catalytic Efficiency (M^-1s^-1)",
              Finite (Qc_of_Z (-500000000000))) ]%string.
Proof. split; vm_compute; qc_struct. Qed.



(** A grid whose signal never changes: every velocity is 0, and a fit that
    is driven to the corner (0, 0) of the box stops one step inside it.
    Km is the smallest positive number, not 0, and the efficiency is
    [1 / enzyme_concentration], a number. *)
Example corner_fit_efficiency :
  (exists conc times rdata,
      load_grid constant_grid = Return (conc, times, rdata) /\
      initial_velocities times rdata = Return [0; 0]) /\
  analyze_enzyme_kinetics (converges_to (0, 0)) constant_grid
                          default_enzyme_concentration
  = Return [ ("Km (µM)", Finite tiny);
             ("Vmax (µM/s)", Finite tiny);
             ("kcat (s^-1)", Finite (tiny / default_enzyme_concentration));
             ("Catalytic Efficiency (M^-1s^-1)",
              Finite (Qc_of_Z 50000000000)) ]%string.
Proof.
  split.
  - do 3 eexists. split; [reflexivity|]. vm_compute; qc_struct.
  - vm_compute. qc_struct.
Qed.

(** * Rendering *)

Local Open Scope Z_scope.

Lemma ndigits_aux_spec (fuel : nat) : forall n : Z,
  1 <= n -> n < 10 ^ (Z.of_nat fuel + 1) ->
  1 <= ndigits_aux fuel n /\
  10 ^ (ndigits_aux fuel n - 1) <= n < 10 ^ ndigits_aux fuel n.
Proof.
  induction fuel as [|f IH]; intros n H1 Hn.
  - cbn in *. lia.
  - cbn [ndigits_aux]. destruct (Z.ltb_spec n 10) as [Hlt|Hge].
    + cbn. lia.
    + assert (Hn' : n / 10 < 10 ^ (Z.of_nat f + 1)).
      { apply Z.div_lt_upper_bound; [lia|].
        rewrite <- Z.pow_succ_r by lia.
        replace (Z.succ (Z.of_nat f + 1)) with (Z.of_nat (S f) + 1) by lia.
        exact Hn. }
      assert (H1' : 1 <= n / 10) by (apply Z.div_le_lower_bound; lia).
      destruct (IH (n / 10) H1' Hn') as (Hk & Hlo & Hhi).
      set (k := ndigits_aux f (n / 10)) in *.
      replace (1 + k - 1) with (Z.succ (k - 1)) by lia.
      replace (1 + k) with (Z.succ k) by lia.
      rewrite !Z.pow_succ_r by lia.
      pose proof (Z.div_mod n 10 ltac:(lia)).
      pose proof (Z.mod_pos_bound n 10 ltac:(lia)).
      lia.
Qed.

Lemma ndigits_spec (n : Z) :
  1 <= n -> 1 <= ndigits n /\ 10 ^ (ndigits n - 1) <= n < 10 ^ ndigits n.
Proof.
  intros H1. unfold ndigits. apply ndigits_aux_spec; trivial.
  rewrite Z2Nat.id by apply Z.log2_nonneg.
  destruct (Z.log2_spec n ltac:(lia)) as [_ Hhi].
  apply (Z.lt_le_trans _ _ _ Hhi).
  replace (Z.succ (Z.log2 n)) with (Z.log2 n + 1) by lia.
  apply Z.pow_le_mono_l. lia.
Qed.

Lemma scale10_positive (a b k : Z) :
  0 < a -> 0 < b -> 0 < fst (scale10 a b k) /\ 0 < snd (scale10 a b k).
Proof.
  intros Ha Hb. unfold scale10.
  destruct (Z.leb_spec 0 k); cbn [fst snd]; split; trivial;
    apply Z.mul_pos_pos; trivial; apply Z.pow_pos_nonneg; lia.
Qed.

(** Moving the decimal point [j] places multiplies the fraction by [10^j]. *)
Lemma scale10_shift (a b k j : Z) :
  0 <= j ->
  fst (scale10 a b (k + j)) * snd (scale10 a b k)
  = fst (scale10 a b k) * 10 ^ j * snd (scale10 a b (k + j)).
Proof.
  intros Hj. unfold scale10.
  destruct (Z.leb_spec 0 k), (Z.leb_spec 0 (k + j)); cbn [fst snd]; try lia.
  - rewrite Z.pow_add_r by lia. ring.
  - replace (10 ^ j) with (10 ^ (k + j) * 10 ^ (- k))
      by (rewrite <- Z.pow_add_r by lia; f_equal; lia).
    ring.
  - replace (10 ^ (- k)) with (10 ^ j * 10 ^ (- (k + j)))
      by (rewrite <- Z.pow_add_r by lia; f_equal; lia).
    ring.
Qed.

Lemma scale10_first_guess (a b : Z) :
  1 <= a -> 1 <= b ->
  let s := scale10 a b (- (ndigits a - ndigits b)) in
  fst s < 10 * snd s /\ snd s < 10 * fst s.
Proof.
  intros Ha Hb.
  destruct (ndigits_spec a Ha) as (Ka & La & Ua).
  destruct (ndigits_spec b Hb) as (Kb & Lb & Ub).
  set (x := ndigits a - 1) in *. set (y := ndigits b - 1) in *.
  replace (ndigits a) with (Z.succ x) in * by (unfold x; lia).
  replace (ndigits b) with (Z.succ y) in * by (unfold y; lia).
  rewrite Z.pow_succ_r in Ua, Ub by (unfold x, y; lia).
  assert (Hx : 0 <= x) by (unfold x; lia).
  assert (Hy : 0 <= y) by (unfold y; lia).
  clearbody x y. cbv zeta. unfold scale10.
  destruct (Z.leb_spec 0 (- (Z.succ x - Z.succ y))); cbn [fst snd].
  - replace (- (Z.succ x - Z.succ y)) with (y - x) by lia.
    assert (E : 10 ^ y = 10 ^ x * 10 ^ (y - x))
      by (rewrite <- Z.pow_add_r by lia; f_equal; lia).
    assert (0 < 10 ^ (y - x)) by (apply Z.pow_pos_nonneg; lia).
    nia.
  - replace (- - (Z.succ x - Z.succ y)) with (x - y) by lia.
    assert (E : 10 ^ x = 10 ^ y * 10 ^ (x - y))
      by (rewrite <- Z.pow_add_r by lia; f_equal; lia).
    assert (0 < 10 ^ (x - y)) by (apply Z.pow_pos_nonneg; lia).
    nia.
Qed.

(** The decimal exponent puts the fraction in [1, 10). *)
Lemma decimal_exponent_spec (a b : Z) :
  1 <= a -> 1 <= b ->
  let s := scale10 a b (- decimal_exponent a b) in
  snd s <= fst s < 10 * snd s.
Proof.
  intros Ha Hb. cbv zeta. unfold decimal_exponent.
  pose proof (scale10_first_guess a b Ha Hb) as G. cbv zeta in G.
  set (e0 := ndigits a - ndigits b) in *.
  pose proof (scale10_positive a b (- e0) ltac:(lia) ltac:(lia)) as P0.
  destruct (scale10 a b (- e0)) as [n d] eqn:E0. cbn [fst snd] in *.
  destruct (Z.ltb_spec n d) as [Hlt|Hge].
  - replace (- (e0 - 1)) with (- e0 + 1) by lia.
    pose proof (scale10_shift a b (- e0) 1 ltac:(lia)) as S.
    pose proof (scale10_positive a b (- e0 + 1) ltac:(lia) ltac:(lia)) as P1.
    rewrite E0 in S. cbn [fst snd] in S.
    change (10 ^ 1) with 10 in S. nia.
  - rewrite E0. cbn [fst snd]. lia.
Qed.

Lemma round_half_even_bounds (n d : Z) :
  0 < d -> n / d <= round_half_even n d <= n / d + 1.
Proof.
  intros Hd. unfold round_half_even.
  destruct (2 * (n mod d) ?= d); [destruct (Z.even (n / d))| |]; lia.
Qed.

(** Rounding goes to a nearest integer. *)
Lemma round_half_even_nearest (n d : Z) :
  0 < d -> 2 * Z.abs (round_half_even n d * d - n) <= d.
Proof.
  intros Hd. unfold round_half_even.
  pose proof (Z.div_mod n d ltac:(lia)) as E.
  pose proof (Z.mod_pos_bound n d Hd) as B.
  destruct (Z.compare_spec (2 * (n mod d)) d) as [H|H|H];
    [destruct (Z.even (n / d))| |]; nia.
Qed.

(** The mantissa is a nearest four-digit integer to the value scaled by its
    exponent, also when rounding up carried into the next decade. *)
Lemma sci_digits_nearest (a b : Z) :
  1 <= a -> 1 <= b ->
  let m := fst (sci_digits a b) in
  let s := scale10 a b (3 - snd (sci_digits a b)) in
  2 * Z.abs (m * snd s - fst s) <= snd s.
Proof.
  intros Ha Hb. cbv zeta. unfold sci_digits.
  set (e := decimal_exponent a b).
  pose proof (scale10_positive a b (3 - e) ltac:(lia) ltac:(lia)) as P.
  destruct (scale10 a b (3 - e)) as [n d] eqn:E. cbn [fst snd] in P.
  pose proof (round_half_even_nearest n d ltac:(lia)) as R.
  destruct (Z.eqb_spec (round_half_even n d) 10000) as [C|C]; cbn [fst snd].
  - rewrite C in R.
    pose proof (scale10_shift a b (3 - (e + 1)) 1 ltac:(lia)) as S.
    replace (3 - (e + 1) + 1) with (3 - e) in S by lia.
    rewrite E in S. cbn [fst snd] in S. change (10 ^ 1) with 10 in S.
    pose proof (scale10_positive a b (3 - (e + 1)) ltac:(lia) ltac:(lia))
      as P'.
    destruct (scale10 a b (3 - (e + 1))) as [n' d']. cbn [fst snd] in *.
    nia.
  - rewrite E. cbn [fst snd]. exact R.
Qed.

(** The mantissa has exactly four digits, the first of them not 0. *)
Lemma sci_digits_mantissa (a b : Z) :
  1 <= a -> 1 <= b -> 1000 <= fst (sci_digits a b) <= 9999.
Proof.
  intros Ha Hb. unfold sci_digits.
  pose proof (decimal_exponent_spec a b Ha Hb) as D. cbv zeta in D.
  set (e := decimal_exponent a b) in *.
  pose proof (scale10_positive a b (- e) ltac:(lia) ltac:(lia)) as P0.
  pose proof (scale10_positive a b (- e + 3) ltac:(lia) ltac:(lia)) as P3.
  pose proof (scale10_shift a b (- e) 3 ltac:(lia)) as S.
  replace (3 - e) with (- e + 3) by lia.
  destruct (scale10 a b (- e)) as [n0 d0].
  destruct (scale10 a b (- e + 3)) as [n d]. cbn [fst snd] in *.
  change (10 ^ 3) with 1000 in S.
  assert (Hlo : 1000 * d <= n) by nia.
  assert (Hhi : n < 10000 * d) by nia.
  pose proof (round_half_even_bounds n d ltac:(lia)) as R.
  assert (1000 <= n / d) by (apply Z.div_le_lower_bound; lia).
  assert (n / d < 10000) by (apply Z.div_lt_upper_bound; lia).
  destruct (Z.eqb_spec (round_half_even n d) 10000); cbn [fst]; lia.
Qed.

Local Close Scope Z_scope.

Lemma significant_digits_digit (k : Z) (s : string) :
  (0 <= k <= 9)%Z ->
  significant_digits (String (digit k) s) = S (significant_digits s).
Proof.
  intros H.
  assert (C : k = 0%Z \/ k = 1%Z \/ k = 2%Z \/ k = 3%Z \/ k = 4%Z \/
              k = 5%Z \/ k = 6%Z \/ k = 7%Z \/ k = 8%Z \/ k = 9%Z) by lia.
  repeat (destruct C as [->|C]; [reflexivity|]). now subst.
Qed.

Lemma significant_digits_mantissa (m : Z) (rest : string) :
  (0 <= m <= 9999)%Z ->
  significant_digits (mantissa_string m ++ "e" ++ rest) = 4%nat.
Proof.
  intros H. unfold mantissa_string. cbn [append].
  assert (D : (0 <= m / 1000 < 10)%Z)
    by (split; [apply Z.div_pos|apply Z.div_lt_upper_bound]; lia).
  rewrite significant_digits_digit by lia.
  change (significant_digits (String "." ?s)) with (significant_digits s).
  rewrite !significant_digits_digit
    by (match goal with
        | |- (0 <= ?a mod 10 <= 9)%Z =>
            pose proof (Z.mod_pos_bound a 10 ltac:(lia)); lia
        end).
  reflexivity.
Qed.

(** C9, as the program behaves.  The format [.3e] prints every finite
    value as an optional minus sign, one digit, a point, three more digits
    and an exponent of at least two digits: four significant digits (the
    first is not 0 unless the value is 0), not three, and the four digits
    are a nearest mantissa for the value.  The non-finite values
    print as [inf], [-inf] and [nan], and each line of the printing loop is
    the key, a colon and a space, and the formatted value. *)
Theorem format_3e_prints_four_digits :
  forall q : Qc,
    exists m e : Z,
      (0 <= m <= 9999)%Z /\
      (q <> 0 -> (1000 <= m)%Z) /\
      (let s := scale10 (Z.abs (Qnum q)) (Zpos (Qden q)) (3 - e) in
       2 * Z.abs (m * snd s - fst s) <= snd s)%Z /\
      format_3e (Finite q)
      = ((if (Qnum q <? 0)%Z then "-" else "")
         ++ mantissa_string m ++ "e" ++ exponent_string e)%string /\
      significant_digits (format_3e (Finite q)) = 4%nat /\
      (forall key,
          print_results [(key, Finite q)]
          = [(key ++ ": " ++ format_3e (Finite q))%string]) /\
      format_3e PosInf = "inf"%string /\
      format_3e NegInf = "-inf"%string /\
      format_3e NaN = "nan"%string.
Proof.
  intros q.
  assert (Hq : q <> 0 -> Qnum q <> 0%Z).
  { intros Hne Hz. apply Hne. apply Qc_is_canon.
    unfold Qeq. cbn. rewrite Hz. reflexivity. }
  assert (F : exists m e : Z,
             (0 <= m <= 9999)%Z /\ (q <> 0 -> (1000 <= m)%Z) /\
             (let s := scale10 (Z.abs (Qnum q)) (Zpos (Qden q)) (3 - e) in
              2 * Z.abs (m * snd s - fst s) <= snd s)%Z /\
             format_3e (Finite q)
             = ((if (Qnum q <? 0)%Z then "-" else "")
                ++ mantissa_string m ++ "e" ++ exponent_string e)%string).
  { unfold format_3e.
    destruct (Z.eqb_spec (Qnum q) 0) as [Hz|Hnz].
    - exists 0%Z, 0%Z. rewrite Hz. cbn [Z.ltb Z.compare].
      split; [lia|]. split; [|split; [|reflexivity]].
      + intros Hne. now apply Hq in Hne.
      + cbn. lia.
    - pose proof (sci_digits_mantissa (Z.abs (Qnum q)) (Zpos (Qden q))
                    ltac:(lia) ltac:(lia)) as M.
      pose proof (sci_digits_nearest (Z.abs (Qnum q)) (Zpos (Qden q))
                    ltac:(lia) ltac:(lia)) as N.
      destruct (sci_digits (Z.abs (Qnum q)) (Zpos (Qden q))) as [m e].
      cbn [fst snd] in M, N. exists m, e.
      split; [lia|]. split; [lia|]. split; [exact N|reflexivity]. }
  destruct F as (m & e & B & L & N & F). exists m, e.
  split; [exact B|]. split; [exact L|]. split; [exact N|]. split; [exact F|].
  split; [|repeat split].
  rewrite F.
  destruct (Qnum q <? 0)%Z; cbn [append];
    try change (significant_digits (String "-" ?s))
      with (significant_digits s);
    now apply significant_digits_mantissa.
Qed.

(** Counterexample to C9 as stated: 1234.5678 is printed with the four
    significant digits 1, 2, 3 and 5. *)
Lemma three_decimals_are_four_digits :
  print_results [("Km (µM)"%string, Finite (Q2Qc (12345678 # 10000)))]
  = ["Km (µM): 1.235e+03"%string] /\
  significant_digits (format_3e (Finite (Q2Qc (12345678 # 10000)))) <> 3%nat.
Proof. split; [reflexivity|]. vm_compute. discriminate. Qed.

Example scenario_printed :
  print_results scenario_results
  = [ "Km (µM): 1.000e+01";
      "Vmax (µM/s): 1.000e+02";
      "kcat (s^-1): 5.000e+12";
      "Catalytic Efficiency (M^-1s^-1): 5.000e+11" ]%string.
Proof. reflexivity. Qed.

Example format_3e_rounds_half_even :
  format_3e (Finite (Qc_of_Z 10005)) = "1.000e+04"%string /\
  format_3e (Finite (Qc_of_Z 10015)) = "1.002e+04"%string /\
  format_3e (Finite (Q2Qc (19999 # 2))) = "1.000e+04"%string /\
  format_3e (Finite (Q2Qc (- 1 # 2))) = "-5.000e-01"%string /\
  format_3e (Finite default_enzyme_concentration) = "2.000e-11"%string.
Proof. repeat split; reflexivity. Qed.

Example scenario_script :
  script (converges_to (Qc_of_Z 100, Qc_of_Z 10)) scenario_grid
  = Return [ "Km (µM): 1.000e+01";
             "Vmax (µM/s): 1.000e+02";
             "kcat (s^-1): 5.000e+12";
             "Catalytic Efficiency (M^-1s^-1): 5.000e+11" ]%string.
Proof. unfold script. rewrite scenario_analysis. reflexivity. Qed.

(** * Failure modes of the analysis *)

Lemma analyze_of_load (ls : optimizer) (df : DataFrame) (e : Qc)
    conc times rdata :
  load_grid df = Return (conc, times, rdata) ->
  analyze_enzyme_kinetics ls df e
  = (initial_rates <- initial_velocities times rdata ;;
     fit_kinetics ls conc initial_rates e).
Proof. intros H. unfold analyze_enzyme_kinetics. now rewrite H. Qed.

(** X1.  On a frame whose cells are all numbers (the conversion
    [.astype(float)] then raises nothing) the three extractions fail exactly
    when the frame has no row or no column, with IndexError, and the
    analysis of such a frame raises IndexError whatever the solver and the
    enzyme concentration. *)
Theorem empty_frame_raises_index_error :
  forall df : DataFrame,
    (load_grid df = Raise (Builtin IndexError)
     <-> rows df = [] \/ n_columns df = 0%nat) /\
    (forall x, load_grid df = Raise x -> x = Builtin IndexError) /\
    (rows df = [] \/ n_columns df = 0%nat ->
     forall ls e,
       analyze_enzyme_kinetics ls df e = Raise (Builtin IndexError)).
Proof.
  intros df.
  assert (R : rows df = [] \/ n_columns df = 0%nat ->
              load_grid df = Raise (Builtin IndexError)).
  { intros [H|H]; unfold load_grid, iloc_row, iloc_last_column.
    - now rewrite H.
    - rewrite H. now destruct (rows df). }
  split; [|split].
  - split; [|exact R]. intros H.
    destruct (rows df) as [|r0 rest] eqn:Hr; [now left|].
    destruct (Nat.eq_dec (n_columns df) 0) as [Hc|Hc]; [now right|].
    rewrite (load_grid_returns df r0 rest Hr Hc) in H. discriminate.
  - intros x H.
    destruct (rows df) as [|r0 rest] eqn:Hr.
    + rewrite R in H by now left. now injection H as <-.
    + destruct (Nat.eq_dec (n_columns df) 0) as [Hc|Hc].
      * rewrite R in H by now right. now injection H as <-.
      * rewrite (load_grid_returns df r0 rest Hr Hc) in H. discriminate.
  - intros H ls e. unfold analyze_enzyme_kinetics. now rewrite (R H).
Qed.

(** X2.  A frame with one or two columns has no concentration column: no
    velocity is computed and [curve_fit] refuses the empty data, so the
    analysis raises ValueError before any solver runs. *)
Theorem no_concentration_column_raises_value_error :
  forall (ls : optimizer) (df : DataFrame) (e : Qc),
    rows df <> [] ->
    (1 <= n_columns df <= 2)%nat ->
    analyze_enzyme_kinetics ls df e = Raise (Builtin ValueError).
Proof.
  intros ls df e Hr Hc.
  destruct (rows df) as [|r0 rest] eqn:Er; [congruence|].
  rewrite (analyze_of_load ls df e _ _ _
             (load_grid_returns df r0 rest Er ltac:(lia))).
  unfold initial_velocities. cbn [shape1].
  replace (n_columns df - 2)%nat with 0%nat by lia.
  reflexivity.
Qed.

Lemma no_concentration_column_raises_value_error_witness :
  analyze_enzyme_kinetics (converges_to (Qc_of_Z 100, Qc_of_Z 10))
                          two_column_grid default_enzyme_concentration
  = Raise (Builtin ValueError).
Proof.
  apply no_concentration_column_raises_value_error.
  - discriminate.
  - cbn. lia.
Defined.

(** X3.  A frame with concentration columns but no row after the two
    header rows has an empty slope window: [np.polyfit] refuses it and the
    analysis raises TypeError. *)
Theorem no_sample_row_raises_type_error :
  forall (ls : optimizer) (df : DataFrame) (e : Qc),
    (1 <= length (rows df) <= 2)%nat ->
    (3 <= n_columns df)%nat ->
    analyze_enzyme_kinetics ls df e = Raise (Builtin TypeError).
Proof.
  intros ls df e Hr Hc.
  destruct (rows df) as [|r0 rest] eqn:Er; [cbn in Hr; lia|].
  rewrite (analyze_of_load ls df e _ _ _
             (load_grid_returns df r0 rest Er ltac:(lia))).
  rewrite Er.
  assert (E : skipn 2 (r0 :: rest) = []).
  { apply skipn_all2. exact (proj2 Hr). }
  rewrite E. unfold initial_velocities. cbn [shape1 map].
  destruct (n_columns df - 2)%nat as [|k] eqn:Ek; [lia|].
  cbn [seq]. rewrite (rate_loop_raises _ _ TypeError); reflexivity.
Qed.

Lemma no_sample_row_raises_type_error_witness :
  analyze_enzyme_kinetics (converges_to (Qc_of_Z 100, Qc_of_Z 10))
                          header_only_grid default_enzyme_concentration
  = Raise (Builtin TypeError).
Proof.
  apply no_sample_row_raises_type_error.
  - cbn. lia.
  - cbn. lia.
Defined.

(** * Concentrations and velocities stay paired *)

Lemma rate_loop_length (t : list Qc) (a : ndarray2) :
  forall (cols : list nat) (acc rates : list Qc),
  rate_loop t a cols acc = Return rates ->
  length rates = (length acc + length cols)%nat.
Proof.
  induction cols as [|i cols IH]; intros acc rates H; cbn [rate_loop] in H.
  - injection H as <-. cbn. lia.
  - destruct (polyfit _ _) as [x|fit]; cbn [call bind] in H; [discriminate|].
    apply IH in H. rewrite H, length_app. cbn. lia.
Qed.

(** X15.  Whenever the rate loop ends without an exception, also on a
    rank-deficient window, it has produced exactly one velocity per
    concentration of a rectangular frame: the fit never sees arrays of
    different lengths. *)
Theorem velocities_pair_with_concentrations :
  forall (df : DataFrame) (conc times rates : list Qc) (rdata : ndarray2),
    rectangular df ->
    load_grid df = Return (conc, times, rdata) ->
    initial_velocities times rdata = Return rates ->
    length rates = length conc /\ length rates = (n_columns df - 2)%nat.
Proof.
  intros df conc times rates rdata Hrect Hl Hv.
  destruct (load_grid_columns df conc times rdata Hrect Hl) as [Hc Hs].
  apply rate_loop_length in Hv. rewrite length_seq in Hv. cbn in Hv.
  split; lia.
Qed.

Lemma velocities_pair_with_concentrations_witness :
  length [Qc_of_Z 2; Qc_of_Z 3] = length sample_concentrations /\
  length [Qc_of_Z 2; Qc_of_Z 3] = (n_columns sample_grid - 2)%nat.
Proof.
  apply (velocities_pair_with_concentrations
           sample_grid sample_concentrations sample_times
           [Qc_of_Z 2; Qc_of_Z 3] sample_signal).
  - repeat constructor.
  - reflexivity.
  - vm_compute. qc_struct.
Defined.

(** * What the analysis does not read *)

Lemma rate_loop_ext (t t' : list Qc) (a a' : ndarray2) :
  slice None (Some num_points_for_slope) t
  = slice None (Some num_points_for_slope) t' ->
  (forall i, column_window a num_points_for_slope i
             = column_window a' num_points_for_slope i) ->
  forall (cols : list nat) (acc : list Qc),
    rate_loop t a cols acc = rate_loop t' a' cols acc.
Proof.
  intros Ht Ha. induction cols as [|i cols IH]; intros acc; [reflexivity|].
  cbn [rate_loop]. rewrite Ht, Ha.
  destruct (polyfit _ _) as [x|fit]; cbn [call bind]; [reflexivity|apply IH].
Qed.

Lemma firstn_5_skipn_2 {A : Type} (l : list A) :
  firstn 5 (skipn 2 l) = skipn 2 (firstn 7 l).
Proof. apply (firstn_skipn_comm 5 2 l). Qed.

(** X4.  Of the sample rows only the first five enter the result: two
    frames of numbers of the same width that agree on their first seven
    rows (two header rows and five samples) give the same outcome, whatever
    numbers the later rows hold. *)
Theorem later_samples_are_ignored :
  forall (ls : optimizer) (df df' : DataFrame) (e : Qc),
    n_columns df = n_columns df' ->
    firstn 7 (rows df) = firstn 7 (rows df') ->
    analyze_enzyme_kinetics ls df e = analyze_enzyme_kinetics ls df' e.
Proof.
  intros ls df df' e Hc Hr.
  destruct (rows df) as [|r0 rest] eqn:Er, (rows df') as [|r0' rest'] eqn:Er';
    try discriminate.
  - unfold analyze_enzyme_kinetics, load_grid, iloc_row. now rewrite Er, Er'.
  - destruct (Nat.eq_dec (n_columns df) 0) as [Hz|Hz].
    + unfold analyze_enzyme_kinetics, load_grid, iloc_row, iloc_last_column.
      rewrite Er, Er', <- Hc, Hz. reflexivity.
    + rewrite (analyze_of_load ls df e _ _ _
                 (load_grid_returns df r0 rest Er Hz)).
      rewrite (analyze_of_load ls df' e _ _ _
                 (load_grid_returns df' r0' rest' Er' ltac:(lia))).
      assert (E0 : r0 = r0') by (cbn in Hr; congruence).
      rewrite Er, Er', <- Hc, <- E0.
      assert (E5 : firstn 5 (skipn 2 (r0 :: rest))
                   = firstn 5 (skipn 2 (r0' :: rest')))
        by (rewrite !firstn_5_skipn_2; now rewrite Hr).
      unfold initial_velocities. cbn [shape1].
      rewrite (rate_loop_ext _
                 (map (fun r => last r 0) (skipn 2 (r0' :: rest')))
                 _ {| shape1 := n_columns df - 2;
                      data := map (slice (Some 1%Z) (Some (-1)%Z))
                                  (skipn 2 (r0' :: rest')) |}).
      * reflexivity.
      * unfold num_points_for_slope. rewrite !slice_prefix by lia.
        change (Z.to_nat 5) with 5%nat.
        rewrite !firstn_map. now rewrite E5.
      * intros i. unfold column_window, num_points_for_slope. cbn [data].
        rewrite !slice_prefix by lia. change (Z.to_nat 5) with 5%nat.
        rewrite !firstn_map. now rewrite E5.
Qed.

Lemma later_samples_are_ignored_witness :
  analyze_enzyme_kinetics (converges_to (Qc_of_Z 100, Qc_of_Z 10))
                          sample_grid default_enzyme_concentration
  = analyze_enzyme_kinetics (converges_to (Qc_of_Z 100, Qc_of_Z 10))
                            longer_grid default_enzyme_concentration.
Proof.
  apply later_samples_are_ignored.
  - reflexivity.
  - reflexivity.
Defined.

Lemma map_through_tl {B : Type} (f : list Qc -> B) (g : list Qc -> B)
    (n : nat) (l l' : list (list Qc)) :
  (forall r, length r = n -> f r = g (tl r)) ->
  Forall (fun r => length r = n) l ->
  Forall (fun r => length r = n) l' ->
  map (@tl Qc) l = map (@tl Qc) l' ->
  map f l = map f l'.
Proof.
  intros Hf Hl Hl' E.
  assert (M : forall k, Forall (fun r => length r = n) k ->
                        map f k = map g (map (@tl Qc) k)).
  { intros k Hk. rewrite map_map. apply map_ext_in. intros r Hr.
    apply Hf. rewrite Forall_forall in Hk. now apply Hk. }
  now rewrite (M l Hl), (M l' Hl'), E.
Qed.

(** X5.  Column 0 and row 1 are never read: two rectangular frames of the
    same width (two columns at least) whose rows other than row 1 agree
    from column 1 onwards give the same outcome. *)
Theorem labels_are_ignored :
  forall (ls : optimizer) (df df' : DataFrame) (e : Qc)
         (r0 r1 r0' r1' : list Qc) (rest rest' : list (list Qc)),
    rows df = r0 :: r1 :: rest ->
    rows df' = r0' :: r1' :: rest' ->
    n_columns df = n_columns df' ->
    (2 <= n_columns df)%nat ->
    rectangular df -> rectangular df' ->
    map (@tl Qc) (r0 :: rest) = map (@tl Qc) (r0' :: rest') ->
    analyze_enzyme_kinetics ls df e = analyze_enzyme_kinetics ls df' e.
Proof.
  intros ls df df' e r0 r1 r0' r1' rest rest' Er Er' Hc Hn Hrect Hrect' Et.
  unfold rectangular in Hrect, Hrect'. rewrite Er in Hrect. rewrite Er' in Hrect'.
  rewrite <- Hc in Hrect'.
  inversion Hrect as [|? ? L0 Hrect1]; subst.
  inversion Hrect1 as [|? ? L1 Lrest]; subst.
  inversion Hrect' as [|? ? L0' Hrect1']; subst.
  inversion Hrect1' as [|? ? L1' Lrest']; subst.
  cbn [map] in Et. injection Et as Et0 Etr.
  assert (Sl : forall r : list Qc, length r = n_columns df ->
                 slice (Some 1%Z) (Some (-1)%Z) r
                 = firstn (n_columns df - 2) (tl r)).
  { intros r Hr. rewrite slice_inner, Hr. now destruct r. }
  assert (La : forall r : list Qc, length r = n_columns df ->
                 last r 0 = last (tl r) 0).
  { intros r Hr. destruct r as [|x [|y r]]; cbn in Hr; try lia. reflexivity. }
  unfold analyze_enzyme_kinetics.
  rewrite (load_grid_returns df r0 (r1 :: rest) Er ltac:(lia)).
  rewrite (load_grid_returns df' r0' (r1' :: rest') Er' ltac:(lia)).
  rewrite Er, Er', <- Hc. cbn [skipn].
  rewrite (Sl r0 L0), (Sl r0' L0'), Et0.
  rewrite (map_through_tl (fun r => last r 0) (fun r => last r 0)
             (n_columns df) rest rest' La Lrest Lrest' Etr).
  rewrite (map_through_tl (slice (Some 1%Z) (Some (-1)%Z))
             (@firstn Qc (n_columns df - 2))
             (n_columns df) rest rest' Sl Lrest Lrest' Etr).
  reflexivity.
Qed.

Lemma labels_are_ignored_witness :
  analyze_enzyme_kinetics (converges_to (Qc_of_Z 100, Qc_of_Z 10))
                          sample_grid default_enzyme_concentration
  = analyze_enzyme_kinetics (converges_to (Qc_of_Z 100, Qc_of_Z 10))
                            relabelled_grid default_enzyme_concentration.
Proof.
  eapply (labels_are_ignored _ sample_grid relabelled_grid).
  - reflexivity.
  - reflexivity.
  - reflexivity.
  - cbn. lia.
  - repeat constructor.
  - repeat constructor.
  - reflexivity.
Defined.

(** * Units and baselines *)

Lemma sum_affine (alpha beta : Qc) (y : list Qc) :
  sum (map (fun v => alpha * v + beta) y)
  = alpha * sum y + Qc_of_nat (length y) * beta.
Proof.
  induction y as [|v y IH].
  - cbn [map length]. rewrite Qc_of_nat_0. cbn. ring.
  - cbn [map length]. rewrite !sum_cons, IH, Qc_of_nat_S. ring.
Qed.

Lemma dot_affine_r (alpha beta : Qc) (x : list Qc) : forall y : list Qc,
  length x = length y ->
  dot x (map (fun v => alpha * v + beta) y)
  = alpha * dot x y + beta * sum x.
Proof.
  induction x as [|t x IH]; intros [|v y] H; try discriminate.
  - unfold dot. cbn. ring.
  - injection H as H. cbn [map]. rewrite !dot_cons, sum_cons, (IH y H). ring.
Qed.



Lemma ols_slope_affine_signal (alpha beta : Qc) (x y : list Qc) :
  length x = length y ->
  ols_slope x (map (fun v => alpha * v + beta) y) = alpha * ols_slope x y.
Proof.
  intros H. unfold ols_slope.
  rewrite (dot_affine_r alpha beta x y H), sum_affine, <- H.
  unfold Qcdiv. ring.
Qed.



Lemma column_window_map_signal (f : Qc -> Qc) (a : ndarray2) (i : nat) :
  well_shaped a -> (i < shape1 a)%nat ->
  column_window (map_signal f a) num_points_for_slope i
  = map f (column_window a num_points_for_slope i).
Proof.
  intros Hw Hi. unfold column_window, map_signal, num_points_for_slope.
  cbn [data]. rewrite !slice_prefix by lia.
  rewrite firstn_map, !map_map. apply map_ext_in. intros r Hr.
  apply In_firstn in Hr. unfold well_shaped in Hw.
  rewrite Forall_forall in Hw.
  rewrite (nth_indep _ 0 (f 0)) by (rewrite length_map, (Hw r Hr); exact Hi).
  apply map_nth.
Qed.

(** X6.  The velocities follow an affine change of the signal: on a slope
    window that passes the rank cut-off of [np.polyfit], replacing every
    signal value [v] by [alpha * v + beta] (another unit, another baseline)
    multiplies every velocity by [alpha] and lets the offset [beta] drop
    out. *)
Theorem velocities_follow_signal_unit :
  forall (times : list Qc) (rdata : ndarray2) (alpha beta : Qc)
         (rates : list Qc),
    well_shaped rdata ->
    length times = length (data rdata) ->
    full_rank (slice None (Some num_points_for_slope) times) = true ->
    initial_velocities times rdata = Return rates ->
    initial_velocities times (map_signal (fun v => alpha * v + beta) rdata)
    = Return (map (Qcmult alpha) rates).
Proof.
  intros times rdata alpha beta rates Hw Hlen Hd Hv.
  rewrite (initial_velocities_full_rank times rdata Hlen Hd) in Hv.
  injection Hv as <-.
  rewrite initial_velocities_full_rank;
    [|cbn [map_signal data]; now rewrite length_map|exact Hd].
  f_equal. cbn [map_signal shape1]. rewrite map_map.
  apply map_ext_in. intros i Hi. apply in_seq in Hi.
  rewrite column_window_map_signal by (trivial; lia).
  rewrite ols_slope_affine_signal by now apply window_lengths.
  ring.
Qed.

Lemma velocities_follow_signal_unit_witness :
  initial_velocities sample_times
    (map_signal (fun v => Qc_of_Z 3 * v + Qc_of_Z 50) sample_signal)
  = Return (map (Qcmult (Qc_of_Z 3)) [Qc_of_Z 2; Qc_of_Z 3]).
Proof.
  apply velocities_follow_signal_unit.
  - repeat constructor.
  - reflexivity.
  - vm_compute. reflexivity.
  - vm_compute. qc_struct.
Defined.



(** The sample times moved to the origin [2^52] no longer pass the
    cut-off. *)
Example ill_conditioned_origin :
  full_rank (slice None (Some num_points_for_slope) sample_times) = true /\
  full_rank (slice None (Some num_points_for_slope)
                   (map (fun t => 1 * t + Qc_of_Z 4503599627370496)
                        sample_times)) = false.
Proof. split; vm_compute; reflexivity. Qed.




(** * The rate law *)

(** X11.  At its pole the rate law raises nothing and yields no finite
    number: for [Km + s = 0] the value is an infinity or a NaN, and at
    [Km = 0], [s = 0] it is NaN. *)
Theorem michaelis_menten_pole :
  forall Vmax Km s : Qc,
    Km + s = 0 ->
    (exists v, michaelis_menten [s] Vmax Km = [v] /\ is_finite v = false) /\
    michaelis_menten [0] Vmax 0 = [NaN].
Proof.
  intros Vmax Km s H.
  assert (Z0 : Qc_eqb 0 0 = true) by now apply Qc_eqb_true.
  split.
  - eexists. split.
    + unfold michaelis_menten. cbn [map]. rewrite H. reflexivity.
    + unfold truediv. rewrite Z0.
      destruct (Qc_eqb (Vmax * s) 0); [reflexivity|].
      now destruct (Qc_ltb 0 (Vmax * s)).
  - unfold michaelis_menten, truediv. cbn [map].
    replace (0 + 0) with 0 by ring. replace (Vmax * 0) with 0 by ring.
    now rewrite Z0.
Qed.

Lemma michaelis_menten_pole_witness :
  (exists v, michaelis_menten [Qc_of_Z (-10)] (Qc_of_Z 100) (Qc_of_Z 10) = [v]
             /\ is_finite v = false) /\
  michaelis_menten [0] (Qc_of_Z 100) 0 = [NaN].
Proof.
  apply michaelis_menten_pole. qc_eq.
Defined.

(** * The result dictionary and its printing *)

(** X13.  The script prints all or nothing.  When the analysis at the
    default enzyme concentration returns, exactly four lines come out, in
    the order Km, Vmax, kcat, catalytic efficiency, each made of the key, a
    colon and a space, and the value in the format [.3e]; when the analysis
    raises, the script raises the same exception and prints no line. *)
Theorem script_prints_all_or_nothing :
  forall (ls : optimizer) (df : DataFrame),
    (forall lines,
        script ls df = Return lines ->
        exists Km Vmax kcat efficiency,
          analyze_enzyme_kinetics ls df default_enzyme_concentration
          = Return [ ("Km (µM)", Km);
                     ("Vmax (µM/s)", Vmax);
                     ("kcat (s^-1)", kcat);
                     ("Catalytic Efficiency (M^-1s^-1)", efficiency) ]%string /\
          lines
          = [ "Km (µM): " ++ format_3e Km;
              "Vmax (µM/s): " ++ format_3e Vmax;
              "kcat (s^-1): " ++ format_3e kcat;
              "Catalytic Efficiency (M^-1s^-1): " ++ format_3e efficiency
            ]%string) /\
    (forall x,
        script ls df = Raise x
        <-> analyze_enzyme_kinetics ls df default_enzyme_concentration
            = Raise x).
Proof.
  intros ls df. unfold script.
  destruct (analyze_enzyme_kinetics ls df default_enzyme_concentration)
    as [results|x0] eqn:E; cbn [bind].
  - split.
    + intros lines H. injection H as <-.
      apply analyze_inv in E.
      destruct E as (conc & times & rdata & rates & _ & _ & Hf).
      apply fit_kinetics_inv in Hf. destruct Hf as (Vmax & Km & _ & ->).
      do 4 eexists. split; reflexivity.
    + intros x. split; discriminate.
  - split.
    + intros lines H. discriminate.
    + intros x. split; intros H; injection H as ->; reflexivity.
Qed.

Lemma Qc_opp_this (q : Qc) : this (- q) = (- this q)%Q.
Proof.
  unfold Qcopp, Q2Qc. cbn [this]. rewrite Qred_opp. now rewrite (canon q).
Qed.

(** X14.  The format is symmetric in the sign: a negative value is printed
    as a minus sign followed by the text of its absolute value. *)
Theorem format_3e_of_negative :
  forall q : Qc,
    0 < q ->
    format_3e (Finite (- q)) = ("-" ++ format_3e (Finite q))%string.
Proof.
  intros q Hq.
  assert (Hn : (0 < Qnum q)%Z).
  { unfold Qclt, Qlt in Hq. cbn in Hq. lia. }
  unfold format_3e. rewrite Qc_opp_this. cbn [Qopp Qnum Qden].
  destruct (Z.eqb_spec (- Qnum q) 0); [lia|].
  destruct (Z.eqb_spec (Qnum q) 0); [lia|].
  destruct (Z.ltb_spec (- Qnum q) 0); [|lia].
  destruct (Z.ltb_spec (Qnum q) 0); [lia|].
  rewrite Z.abs_opp.
  destruct (sci_digits (Z.abs (Qnum q)) (Z.pos (Qden q))) as [m ex].
  reflexivity.
Qed.

Lemma format_3e_of_negative_witness :
  format_3e (Finite (- Q2Qc (12345678 # 10000)))
  = ("-" ++ format_3e (Finite (Q2Qc (12345678 # 10000))))%string.
Proof.
  apply format_3e_of_negative. reflexivity.
Defined.

(** * Coincident sample times *)



(** * Values of four digits *)

Local Open Scope Z_scope.

Lemma round_half_even_exact (m d : Z) :
  0 < d -> round_half_even (m * d) d = m.
Proof.
  intros Hd. unfold round_half_even.
  rewrite Z.div_mul, Z.mod_mul by lia.
  destruct (Z.compare_spec (2 * 0) d); lia.
Qed.

(** The decimal exponent of a four-digit multiple of a power of ten. *)
Lemma decimal_exponent_exact (a b m k : Z) :
  1 <= a -> 1 <= b -> 1000 <= m <= 9999 ->
  fst (scale10 a b (- k)) = m * snd (scale10 a b (- k)) ->
  decimal_exponent a b = k + 3.
Proof.
  intros Ha Hb Hm Hk.
  pose proof (decimal_exponent_spec a b Ha Hb) as D. cbv zeta in D.
  set (e := decimal_exponent a b) in *.
  pose proof (scale10_positive a b (- e) ltac:(lia) ltac:(lia)) as Pe.
  pose proof (scale10_positive a b (- k) ltac:(lia) ltac:(lia)) as Pk.
  destruct (Z.le_gt_cases e k) as [Hle|Hgt].
  - exfalso.
    pose proof (scale10_shift a b (- k) (k - e) ltac:(lia)) as S.
    replace (- k + (k - e)) with (- e) in S by lia.
    assert (0 < 10 ^ (k - e)) by (apply Z.pow_pos_nonneg; lia).
    destruct (scale10 a b (- e)) as [ne de].
    destruct (scale10 a b (- k)) as [nk dk]. cbn [fst snd] in *.
    subst nk. set (p := 10 ^ (k - e)) in *. clearbody p.
    assert (E : ne = m * p * de).
    { apply (Z.mul_cancel_r _ _ dk); [lia|]. rewrite S. ring. }
    assert (1000 <= m * p) by nia.
    assert (1000 * de <= m * p * de) by (apply Z.mul_le_mono_nonneg_r; lia).
    lia.
  - pose proof (scale10_shift a b (- e) (e - k) ltac:(lia)) as S.
    replace (- e + (e - k)) with (- k) in S by lia.
    set (j := e - k) in *.
    assert (J : j = 3 -> e = k + 3) by (unfold j; lia).
    assert (Hj : 0 < j) by (unfold j; lia).
    clearbody j.
    destruct (scale10 a b (- e)) as [ne de].
    destruct (scale10 a b (- k)) as [nk dk]. cbn [fst snd] in *.
    subst nk.
    assert (E : m * de = ne * 10 ^ j).
    { apply (Z.mul_cancel_r _ _ dk); [lia|]. rewrite <- S. ring. }
    apply J.
    destruct (Z.lt_trichotomy j 3) as [L|[L|L]]; trivial; exfalso.
    + assert (10 ^ (j + 1) <= 10 ^ 3) by (apply Z.pow_le_mono_r; lia).
      rewrite Z.pow_add_r in H by lia. change (10 ^ 1) with 10 in H.
      change (10 ^ 3) with 1000 in H. nia.
    + assert (10 ^ 4 <= 10 ^ j) by (apply Z.pow_le_mono_r; lia).
      change (10 ^ 4) with 10000 in H. nia.
Qed.

Lemma sci_digits_exact (a b m k : Z) :
  1 <= a -> 1 <= b -> 1000 <= m <= 9999 ->
  fst (scale10 a b (- k)) = m * snd (scale10 a b (- k)) ->
  sci_digits a b = (m, k + 3).
Proof.
  intros Ha Hb Hm Hk. unfold sci_digits.
  rewrite (decimal_exponent_exact a b m k Ha Hb Hm Hk).
  replace (3 - (k + 3)) with (- k) by lia.
  pose proof (scale10_positive a b (- k) ltac:(lia) ltac:(lia)) as Pk.
  destruct (scale10 a b (- k)) as [nk dk]. cbn [fst snd] in *. subst nk.
  rewrite round_half_even_exact by lia.
  destruct (Z.eqb_spec m 10000); [lia|reflexivity].
Qed.

Lemma decimal_fraction (m k : Z) :
  1 <= m ->
  let a := Qnum (decimal m k) in
  let b := Zpos (Qden (decimal m k)) in
  1 <= a /\ fst (scale10 a b (- k)) = m * snd (scale10 a b (- k)).
Proof.
  intros Hm. cbv zeta. unfold decimal, Q2Qc. cbn [this].
  set (raw := if 0 <=? k then inject_Z (m * 10 ^ k)
              else m # Z.to_pos (10 ^ (- k))).
  pose proof (Qred_correct raw) as E. unfold Qeq in E.
  destruct (Qred raw) as [a b]. cbn [Qnum Qden] in *.
  unfold scale10. subst raw.
  destruct (Z.leb_spec 0 k) as [Hk|Hk]; cbn [Qnum Qden inject_Z] in E.
  - assert (0 < 10 ^ k) by (apply Z.pow_pos_nonneg; lia).
    destruct (Z.leb_spec 0 (- k)); cbn [fst snd].
    + replace k with 0 in * by lia. change (10 ^ 0) with 1 in *.
      change (- 0) with 0. change (10 ^ 0) with 1. split; nia.
    + replace (- - k) with k by lia. split; nia.
  - assert (P : 0 < 10 ^ (- k)) by (apply Z.pow_pos_nonneg; lia).
    rewrite Z2Pos.id in E by exact P.
    destruct (Z.leb_spec 0 (- k)); [|lia]. cbn [fst snd]. split; nia.
Qed.

Local Close Scope Z_scope.

(** X17.  A value with at most four significant digits is printed with
    exactly those digits: for a mantissa [m] of four digits the number
    [m * 10^k] appears as the digits of [m], the point after the first of
    them, and the exponent [k + 3]. *)
Theorem format_3e_is_exact_on_four_digits :
  forall m k : Z,
    (1000 <= m <= 9999)%Z ->
    format_3e (Finite (decimal m k))
    = (mantissa_string m ++ "e" ++ exponent_string (k + 3))%string.
Proof.
  intros m k Hm.
  destruct (decimal_fraction m k ltac:(lia)) as [Ha Hs].
  unfold format_3e.
  destruct (Z.eqb_spec (Qnum (decimal m k)) 0); [lia|].
  destruct (Z.ltb_spec (Qnum (decimal m k)) 0); [lia|].
  rewrite Z.abs_eq by lia.
  rewrite (sci_digits_exact (Qnum (decimal m k))
             (Zpos (Qden (decimal m k))) m k Ha ltac:(lia) Hm Hs).
  reflexivity.
Qed.

Lemma format_3e_is_exact_on_four_digits_witness :
  format_3e (Finite (decimal 2000 (-14)))
  = (mantissa_string 2000 ++ "e" ++ exponent_string (-14 + 3))%string.
Proof.
  apply format_3e_is_exact_on_four_digits. lia.
Defined.

Example default_enzyme_concentration_printed :
  decimal 2000 (-14) = default_enzyme_concentration /\
  format_3e (Finite (decimal 2000 (-14))) = "2.000e-11"%string.
Proof. split; [qc_eq|reflexivity]. Qed.
